(** * Compression::zzlib — a shallow embedding of src/engine/zzlib.cpp

    The file embeds the five functions of [namespace Compression]
    ([unzipData], [zipData], [unzipStream], [zipStreamBuf],
    [CreateImageFromZlib]) and proves the properties of their
    specification.

    Modelling decisions, all visible in the definitions below:
    - integers are [Z]; every conversion the C++ performs
      ([static_cast<uLong>], [static_cast<uint32_t>], [size_t]
      arithmetic) is written out as a reduction modulo the width of
      the target type.  The widths of [size_t] and [uLong] and
      [std::vector::max_size()] are implementation-defined, so they
      are the fields of a [Platform];
    - a [std::vector<uint8_t>] is a [list byte]; a [(pointer, length)]
      pair is an [option (list byte)] (the bytes readable behind the
      pointer, [None] for [nullptr]) together with the length;
    - zlib is an external library: it is the interface [Zlib], whose
      three functions are pure functions of what the C call receives;
    - calls into zlib and [ERROR_LOG] lines are recorded in a trace, so
      that "the library is not invoked" and "the failure is logged" are
      statements about the program;
    - the retry loop of [unzipData] is a [Fixpoint] on fuel; running
      out of fuel is the only source of [None];
    - allocation failure ([std::bad_alloc], [std::length_error]) is
      outside the model: a vector of any length can be built. *)

From Stdlib Require Import String.
From Stdlib.Strings Require Import Byte.
From Stdlib Require Import ZArith List Lia Bool.
Import ListNotations.
Local Open Scope Z_scope.

(* ================================================================== *)
(** ** Platform-defined integer types                                  *)
(* ================================================================== *)

Record Platform : Type := mkPlatform {
  SIZE_MAX : Z;          (* largest value of size_t                    *)
  ULONG_MAX : Z;         (* largest value of zlib's uLong              *)
  vector_max_size : Z    (* std::vector<uint8_t>::max_size()           *)
}.

(** 64-bit Unix: [unsigned long] and [size_t] are both 64 bits wide. *)
Definition LP64 : Platform := mkPlatform (2 ^ 64 - 1) (2 ^ 64 - 1) (2 ^ 63 - 1).
(** 64-bit Windows: [size_t] is 64 bits, [unsigned long] stays 32 bits. *)
Definition LLP64 : Platform := mkPlatform (2 ^ 64 - 1) (2 ^ 32 - 1) (2 ^ 63 - 1).
(** 32-bit targets: everything is 32 bits wide. *)
Definition ILP32 : Platform := mkPlatform (2 ^ 32 - 1) (2 ^ 32 - 1) (2 ^ 31 - 1).

Definition UINT32_MAX : Z := 2 ^ 32 - 1.
Definition INT32_MAX : Z := 2 ^ 31 - 1.

(** What holds on every target of the program: [uLong] ([unsigned
    long]) and [size_t] hold every 32-bit value, and a vector is never
    longer than [size_t] can count. *)
Record PlatformOk (P : Platform) : Prop := mkPlatformOk {
  ulong_holds_uint32 : UINT32_MAX <= ULONG_MAX P;
  size_holds_uint32 : UINT32_MAX <= SIZE_MAX P;
  max_size_pos : 0 < vector_max_size P;
  max_size_fits : vector_max_size P <= SIZE_MAX P
}.

(** Conversion to an unsigned type keeps the value modulo 2^width. *)
Definition to_size_t (P : Platform) (x : Z) : Z := x mod (SIZE_MAX P + 1).
Definition to_uLong (P : Platform) (x : Z) : Z := x mod (ULONG_MAX P + 1).
Definition to_uint32 (x : Z) : Z := x mod (UINT32_MAX + 1).

(* ================================================================== *)
(** ** Byte vectors                                                    *)
(* ================================================================== *)

Definition bytes : Type := list byte.

(** [v.size()] *)
Definition size {A : Type} (v : list A) : Z := Z.of_nat (length v).

(** [std::vector<uint8_t> v( n )]: n value-initialised bytes. *)
Definition vector_n (n : Z) : bytes := repeat x00 (Z.to_nat n).

(** [v.resize( n )]: truncate, or pad with value-initialised bytes. *)
Definition resize (n : Z) (v : bytes) : bytes :=
  firstn (Z.to_nat n) v ++ repeat x00 (Z.to_nat n - length v).

(** The bytes behind [p] after a callee stored [out] at [p]: the stored
    bytes replace a prefix.  A conforming callee never stores more than
    the buffer holds; what falls beyond the end is dropped here. *)
Definition store (dest out : bytes) : bytes :=
  firstn (length dest) out ++ skipn (length out) dest.

(** [std::memcpy( dest, src, n )] on buffers holding at least n bytes. *)
Definition memcpy (dest src : bytes) (n : Z) : bytes :=
  firstn (Z.to_nat n) src ++ skipn (Z.to_nat n) dest.

(** The [n] bytes read through a [const uint8_t *] at memory [mem]. *)
Definition read_n (mem : bytes) (n : Z) : bytes := firstn (Z.to_nat n) mem.

(* ================================================================== *)
(** ** zlib                                                            *)
(* ================================================================== *)

(** Return codes of zlib.h. *)
Definition Z_OK : Z := 0.
Definition Z_DATA_ERROR : Z := -3.
Definition Z_BUF_ERROR : Z := -5.

(** [compressBound( sourceLen )],
    [compress( dest, &destLen, source, sourceLen )] and
    [uncompress( dest, &destLen, source, sourceLen )].
    The two codecs take the incoming [destLen] (the capacity of [dest])
    and the source bytes; they return the code and the bytes stored at
    [dest], whose count is the outgoing [destLen]. *)
Record Zlib : Type := mkZlib {
  compressBound : Z -> Z;
  compress : Z -> bytes -> Z * bytes;
  uncompress : Z -> bytes -> Z * bytes
}.

(* ================================================================== *)
(** ** Effects: library calls and log lines                            *)
(* ================================================================== *)

Inductive Event : Type :=
| CallCompressBound (sourceLen : Z)
| CallCompress (destLen : Z) (source : bytes)
| CallUncompress (destLen : Z) (source : bytes)
| ErrorLog (msg : string)
| ErrorLogCode (msg : string) (code : Z).

Definition Trace : Type := list Event.

(** A computation yields a value and the trace it produced, or [None]
    when the fuel of a loop ran out. *)
Definition M (A : Type) : Type := option (A * Trace).

Definition ret {A : Type} (a : A) : M A := Some (a, []).

Definition bind {A B : Type} (m : M A) (k : A -> M B) : M B :=
  match m with
  | None => None
  | Some (a, t) =>
      match k a with
      | None => None
      | Some (b, t') => Some (b, t ++ t')
      end
  end.

Definition emit (e : Event) : M unit := Some (tt, [e]).

Definition out_of_fuel {A : Type} : M A := None.

Declare Scope run_scope.
Delimit Scope run_scope with run.
Notation "x <- m ;; k" := (bind m (fun x => k))
  (at level 61, m at next level, right associativity) : run_scope.
Notation "' pat <- m ;; k" := (bind m (fun x => match x with pat => k end))
  (at level 61, pat pattern, m at next level, right associativity) : run_scope.
Notation "m ;;; k" := (bind m (fun _ => k))
  (at level 61, right associativity) : run_scope.
Local Open Scope run_scope.

(** [ERROR_LOG( msg )] and [ERROR_LOG( msg << code )]. *)
Definition ERROR_LOG (msg : string) : M unit := emit (ErrorLog msg).
Definition ERROR_LOG_code (msg : string) (code : Z) : M unit :=
  emit (ErrorLogCode msg code).

(** The value of a finished run. *)
Definition value {A : Type} (m : M A) : option A := option_map fst m.

(** Capacities handed to [uncompress], in call order. *)
Fixpoint uncompress_caps (t : Trace) : list Z :=
  match t with
  | [] => []
  | CallUncompress cap _ :: t' => cap :: uncompress_caps t'
  | _ :: t' => uncompress_caps t'
  end.

(* ================================================================== *)
(** ** Streams (serialize.h)                                           *)
(* ================================================================== *)

(** Modelled from the spec: serialize.h is not part of the sources.  The
    specification lists what the binary stream abstraction provides:
    [get32], [get16], [skip(n)] and [getRaw(len)] on the reading side,
    [put32], [put16], [putRaw(bytes,len)] and the [fail()] query on the
    writing side.  [IStreamBase] and [OStreamBase] are abstract base
    classes, so they are interfaces here; a stream is a value and every
    operation returns the stream it leaves behind.  [get32] yields a
    [uint32_t] and [get16] a [uint16_t]. *)
Class IStreamBase (I : Type) : Type := {
  get32 : I -> Z * I;
  get16 : I -> Z * I;
  skip : Z -> I -> I;
  getRaw : Z -> I -> bytes * I
}.

Class OStreamBase (O : Type) : Type := {
  put32 : Z -> O -> O;
  put16 : Z -> O -> O;
  putRaw : bytes -> O -> O;
  fail : O -> bool
}.

(** Modelled from the spec: the source buffer handed to
    [zipStreamBuf], an [IStreamBuf], of which the function uses
    [data()] (the pointer to the unread bytes, [None] for [nullptr])
    and [size()] (their count). *)
Record IStreamBuf : Type := mkIStreamBuf {
  data : option bytes;
  buf_size : Z
}.

(** The stream that holds exactly the bytes [B]. *)
Definition stream_of (B : bytes) : IStreamBuf := mkIStreamBuf (Some B) (size B).

(* ================================================================== *)
(** ** Images (image.h)                                                *)
(* ================================================================== *)

(** Modelled from the spec: image.h is not part of the sources.  An
    image is a width x height grid of one-byte colour indices with an
    optional second grid of the same dimensions, the transform layer;
    the abstraction provides [resize(width,height)], the two buffers
    and a way to switch the second one off.  A default-constructed
    image is empty and has both layers. *)
Record Image : Type := mkImage {
  width : Z;
  height : Z;
  image : bytes;
  transform : bytes;
  singleLayer : bool
}.

Definition Image_default : Image := mkImage 0 0 [] [] false.

Definition _disableTransformLayer (img : Image) : Image :=
  mkImage (width img) (height img) (image img) [] true.

Definition Image_resize (w h : Z) (img : Image) : Image :=
  mkImage w h (vector_n (w * h))
          (if singleLayer img then [] else vector_n (w * h))
          (singleLayer img).

(** Modelled from the spec: the image after its colour-index buffer
    ([image()]), respectively its transform buffer ([transform()]), was
    written through. *)
Definition set_image (plane : bytes) (img : Image) : Image :=
  mkImage (width img) (height img) plane (transform img) (singleLayer img).

Definition set_transform (plane : bytes) (img : Image) : Image :=
  mkImage (width img) (height img) (image img) plane (singleLayer img).

Definition FORMAT_VERSION_0 : Z := 0.

Section Compression.

Variable P : Platform.
Variable zlib : Zlib.

Definition call_compressBound (n : Z) : M Z :=
  emit (CallCompressBound n) ;;; ret (compressBound zlib n).
Definition call_compress (destLen : Z) (source : bytes) : M (Z * bytes) :=
  emit (CallCompress destLen source) ;;; ret (compress zlib destLen source).
Definition call_uncompress (destLen : Z) (source : bytes) : M (Z * bytes) :=
  emit (CallUncompress destLen source) ;;; ret (uncompress zlib destLen source).

(* ================================================================== *)
(** ** Compression::unzipData                                          *)
(* ================================================================== *)

(** How control leaves the [while] loop of [unzipData]: by one of the
    [return {}] inside the body, or by the loop condition turning false
    with [ret], [res] and [dstSizeULong] as they are then. *)
Inductive LoopExit : Type :=
| Return (v : bytes)
| Break (ret_ : Z) (res : bytes) (dstSizeULong : Z).

(** The loop, entered with [res] and [dstSizeULong]; [source] is the
    [srcSizeULong] bytes behind [src]. *)
Fixpoint unzip_loop (fuel : nat) (source res : bytes) (dstSizeULong : Z)
  : M LoopExit :=
  match fuel with
  | O => out_of_fuel
  | S fuel' =>
      ' (ret_, out) <- call_uncompress dstSizeULong source ;;
      let res := store res out in
      let dstSizeULong := size out in
      if Z_BUF_ERROR =? ret_ then
        let sizeMultiplier := 2 in
        if vector_max_size P / sizeMultiplier <? size res then
          ERROR_LOG "The size of the decompressed data is too large" ;;;
          ret (Return [])
        else
          let res := resize (to_size_t P (size res * sizeMultiplier)) res in
          let dstSizeULong := to_uLong P (size res) in
          if negb (dstSizeULong =? size res) then
            ERROR_LOG "The size of the decompressed data is too large" ;;;
            ret (Return [])
          else unzip_loop fuel' source res dstSizeULong
      else ret (Break ret_ res dstSizeULong)
  end.

(** The first buffer size when the caller gave none. *)
Definition initial_guess (srcSize : Z) : Z :=
  let sizeMultiplier := 7 in
  if vector_max_size P / sizeMultiplier <? srcSize then srcSize
  else to_size_t P (srcSize * sizeMultiplier).

Definition unzipData (fuel : nat) (src : option bytes) (srcSize realSize : Z)
  : M bytes :=
  match src with
  | None => ret []
  | Some mem =>
      if srcSize =? 0 then ret []
      else
        let srcSizeULong := to_uLong P srcSize in
        if negb (srcSizeULong =? srcSize) then
          ERROR_LOG "The size of the compressed data is too large" ;;; ret []
        else
          let res := vector_n realSize in
          let res :=
            if realSize =? 0 then resize (initial_guess srcSize) res else res in
          let dstSizeULong := to_uLong P (size res) in
          if negb (dstSizeULong =? size res) then
            ERROR_LOG "The size of the decompressed data is too large" ;;; ret []
          else
            e <- unzip_loop fuel (read_n mem srcSizeULong) res dstSizeULong ;;
            match e with
            | Return v => ret v
            | Break ret_ res dstSizeULong =>
                if negb (ret_ =? Z_OK) then
                  ERROR_LOG_code "zlib error: " ret_ ;;; ret []
                else ret (resize (to_size_t P dstSizeULong) res)
            end
  end.

(* ================================================================== *)
(** ** Compression::zipData                                            *)
(* ================================================================== *)

Definition zipData (src : option bytes) (srcSize : Z) : M bytes :=
  match src with
  | None => ret []
  | Some mem =>
      if srcSize =? 0 then ret []
      else
        let srcSizeULong := to_uLong P srcSize in
        if negb (srcSizeULong =? srcSize) then
          ERROR_LOG "The size of the source data is too large" ;;; ret []
        else
          bound <- call_compressBound srcSizeULong ;;
          let res := vector_n (to_size_t P bound) in
          let dstSizeULong := to_uLong P (size res) in
          if negb (dstSizeULong =? size res) then
            ERROR_LOG "The size of the compressed data is too large" ;;; ret []
          else
            ' (ret_, out) <- call_compress dstSizeULong (read_n mem srcSizeULong) ;;
            let res := store res out in
            let dstSizeULong := size out in
            if negb (ret_ =? Z_OK) then
              ERROR_LOG_code "zlib error: " ret_ ;;; ret []
            else ret (resize (to_size_t P dstSizeULong) res)
  end.

(* ================================================================== *)
(** ** Compression::unzipStream                                        *)
(* ================================================================== *)

Definition unzipStream {I O : Type} `{IStreamBase I} `{OStreamBase O}
  (fuel : nat) (inputStream : I) (outputStream : O) : M (bool * I * O) :=
  let '(rawSize, inputStream) := get32 inputStream in
  let '(zipSize, inputStream) := get32 inputStream in
  if zipSize =? 0 then ret (false, inputStream, outputStream)
  else
    let '(version, inputStream) := get16 inputStream in
    if negb (version =? FORMAT_VERSION_0) then
      ret (false, inputStream, outputStream)
    else
      let inputStream := skip 2 inputStream in
      let '(zip, inputStream) := getRaw zipSize inputStream in
      raw <- unzipData fuel (Some zip) (size zip) rawSize ;;
      if negb (size raw =? rawSize) then
        ret (false, inputStream, outputStream)
      else
        let outputStream := putRaw raw outputStream in
        ret (negb (fail outputStream), inputStream, outputStream).

(* ================================================================== *)
(** ** Compression::zipStreamBuf                                       *)
(* ================================================================== *)

Definition empty (v : bytes) : bool :=
  match v with [] => true | _ :: _ => false end.

Definition zipStreamBuf {O : Type} `{OStreamBase O}
  (inputStream : IStreamBuf) (outputStream : O) : M (bool * O) :=
  zip <- zipData (data inputStream) (buf_size inputStream) ;;
  if empty zip then ret (false, outputStream)
  else
    let outputStream := put32 (to_uint32 (buf_size inputStream)) outputStream in
    let outputStream := put32 (to_uint32 (size zip)) outputStream in
    let outputStream := put16 FORMAT_VERSION_0 outputStream in
    let outputStream := put16 0 outputStream in
    let outputStream := putRaw zip outputStream in
    ret (negb (fail outputStream), outputStream).

(* ================================================================== *)
(** ** Compression::CreateImageFromZlib                                *)
(* ================================================================== *)

Definition is_nullptr (p : option bytes) : bool :=
  match p with None => true | Some _ => false end.

Definition CreateImageFromZlib (fuel : nat) (width height : Z)
  (imageData : option bytes) (imageSize : Z) (doubleLayer : bool) : M Image :=
  if is_nullptr imageData || (imageSize =? 0) || (width <=? 0) || (height <=? 0)
  then ret Image_default
  else
    uncompressedData <- unzipData fuel imageData imageSize 0 ;;
    if doubleLayer && (Z.land (size uncompressedData) 1 =? 1) then
      ret Image_default
    else
      let uncompressedSize :=
        if doubleLayer then size uncompressedData / 2
        else size uncompressedData in
      if negb (to_size_t P (to_size_t P width * to_size_t P height)
               =? uncompressedSize)
      then ret Image_default
      else
        let out := Image_default in
        let out := if negb doubleLayer then _disableTransformLayer out else out in
        let out := Image_resize width height out in
        let out :=
          set_image (memcpy (image out) uncompressedData uncompressedSize) out in
        let out :=
          if doubleLayer then
            set_transform
              (memcpy (transform out)
                      (skipn (Z.to_nat uncompressedSize) uncompressedData)
                      uncompressedSize) out
          else out in
        ret out.

End Compression.

Arguments unzip_loop P zlib fuel source res dstSizeULong : assert.
Arguments unzipData P zlib fuel src srcSize realSize : assert.
Arguments zipData P zlib src srcSize : assert.
Arguments unzipStream P zlib {I O _ _} fuel inputStream outputStream : assert.
Arguments zipStreamBuf P zlib {O _} inputStream outputStream : assert.
Arguments CreateImageFromZlib P zlib fuel width height imageData imageSize doubleLayer : assert.

(** Fuel that lets the retry loop of [unzipData] run to its end on
    platform [P]: a buffer size is at least 1 and doubles at every
    retry, and no retry starts above [max_size / 2]. *)
Definition enough_fuel (P : Platform) : nat :=
  S (S (Z.to_nat (Z.log2 (vector_max_size P)))).

(* ================================================================== *)
(** ** A reference implementation of the [Zlib] interface              *)
(* ================================================================== *)

(** A run-length codec in the place of deflate: the compressed form of
    a buffer is the sequence of its runs, each as a count byte (1..255)
    followed by the repeated byte.  It is used to run the functions
    above on concrete buffers. *)
Module Rle.

Fixpoint runs (l : bytes) : list (nat * byte) :=
  match l with
  | [] => []
  | b :: rest =>
      match runs rest with
      | (n, b') :: rs =>
          if Byte.eqb b b' && (n <? 255)%nat then (S n, b) :: rs
          else (1%nat, b) :: (n, b') :: rs
      | [] => [(1%nat, b)]
      end
  end.

Definition count_byte (n : nat) : byte :=
  match Byte.of_nat n with Some b => b | None => x00 end.

Fixpoint serialise (rs : list (nat * byte)) : bytes :=
  match rs with
  | [] => []
  | (n, b) :: rs' => count_byte n :: b :: serialise rs'
  end.

Definition deflate (l : bytes) : bytes := serialise (runs l).

Fixpoint inflate (c : bytes) : option bytes :=
  match c with
  | [] => Some []
  | n :: b :: rest => option_map (app (repeat b (Byte.to_nat n))) (inflate rest)
  | [_] => None
  end.

Definition compressBound (sourceLen : Z) : Z := 2 * sourceLen.

Definition compress (destLen : Z) (source : bytes) : Z * bytes :=
  let c := deflate source in
  if size c <=? destLen then (Z_OK, c) else (Z_BUF_ERROR, []).

(** As zlib's [uncompress] does, a destination of length 0 is answered
    with [Z_DATA_ERROR], not [Z_BUF_ERROR], when the stream has
    content. *)
Definition uncompress (destLen : Z) (source : bytes) : Z * bytes :=
  match inflate source with
  | None => (Z_DATA_ERROR, [])
  | Some d =>
      if size d <=? destLen then (Z_OK, d)
      else if destLen =? 0 then (Z_DATA_ERROR, [])
      else (Z_BUF_ERROR, firstn (Z.to_nat destLen) d)
  end.

Definition zlib : Zlib := mkZlib compressBound compress uncompress.

End Rle.

(* ================================================================== *)
(** ** A reference implementation of the stream interfaces             *)
(* ================================================================== *)

(** Modelled from the spec: a memory stream that is written at its end
    and read from its front, with the fault flag that [fail()] reports
    and the byte order the stream was set to.  Integers take 4 and 2
    bytes in that byte order; a read beyond the end yields zeros and
    raises the fault flag. *)
Record StreamBuf : Type := mkStreamBuf {
  content : bytes;
  failed : bool;
  bigendian : bool
}.

Definition byte_of_Z (x : Z) : byte :=
  match Byte.of_N (Z.to_N (x mod 256)) with Some b => b | None => x00 end.

Definition Z_of_byte (b : byte) : Z := Z.of_N (Byte.to_N b).

Fixpoint le_bytes (n : nat) (v : Z) : bytes :=
  match n with
  | O => []
  | S n' => byte_of_Z v :: le_bytes n' (v / 256)
  end.

Fixpoint le_value (l : bytes) : Z :=
  match l with
  | [] => 0
  | b :: r => Z_of_byte b + 256 * le_value r
  end.

Definition encode_int (be : bool) (n : nat) (v : Z) : bytes :=
  if be then rev (le_bytes n v) else le_bytes n v.

Definition decode_int (be : bool) (w : bytes) : Z :=
  if be then le_value (rev w) else le_value w.

Definition sb_put (n : nat) (v : Z) (s : StreamBuf) : StreamBuf :=
  mkStreamBuf (content s ++ encode_int (bigendian s) n v) (failed s) (bigendian s).

Definition sb_get (n : nat) (s : StreamBuf) : Z * StreamBuf :=
  if (length (content s) <? n)%nat then (0, mkStreamBuf [] true (bigendian s))
  else (decode_int (bigendian s) (firstn n (content s)),
        mkStreamBuf (skipn n (content s)) (failed s) (bigendian s)).

Definition sb_skip (n : Z) (s : StreamBuf) : StreamBuf :=
  if size (content s) <? n then mkStreamBuf [] true (bigendian s)
  else mkStreamBuf (skipn (Z.to_nat n) (content s)) (failed s) (bigendian s).

Definition sb_getRaw (n : Z) (s : StreamBuf) : bytes * StreamBuf :=
  (resize n (content s),
   mkStreamBuf (skipn (Z.to_nat n) (content s))
               (failed s || (size (content s) <? n)) (bigendian s)).

Definition sb_putRaw (b : bytes) (s : StreamBuf) : StreamBuf :=
  mkStreamBuf (content s ++ b) (failed s) (bigendian s).

#[export] Instance StreamBuf_IStreamBase : IStreamBase StreamBuf := {
  get32 := sb_get 4;
  get16 := sb_get 2;
  skip := sb_skip;
  getRaw := sb_getRaw
}.

#[export] Instance StreamBuf_OStreamBase : OStreamBase StreamBuf := {
  put32 := sb_put 4;
  put16 := sb_put 2;
  putRaw := sb_putRaw;
  fail := failed
}.

(** A stream nothing was written to yet. *)
Definition fresh_stream (be : bool) : StreamBuf := mkStreamBuf [] false be.

(** A sink that holds at most [room] more bytes, as a file on a full
    disk does: a write that does not fit is dropped and raises the
    fault flag. *)
Record BoundedSink : Type := mkBoundedSink {
  written : bytes;
  room : Z;
  faulted : bool
}.

Definition bs_write (b : bytes) (s : BoundedSink) : BoundedSink :=
  if size b <=? room s then mkBoundedSink (written s ++ b) (room s - size b) (faulted s)
  else mkBoundedSink (written s) (room s) true.

#[export] Instance BoundedSink_OStreamBase : OStreamBase BoundedSink := {
  put32 v := bs_write (le_bytes 4 v);
  put16 v := bs_write (le_bytes 2 v);
  putRaw := bs_write;
  fail := faulted
}.

(* ================================================================== *)
(** ** A second implementation of the [Zlib] interface                 *)
(* ================================================================== *)

(** The codec that stores its input unchanged, as deflate does with
    stored blocks, without any header. *)
Module Stored.

Definition compressBound (sourceLen : Z) : Z := sourceLen.

Definition compress (destLen : Z) (source : bytes) : Z * bytes :=
  if size source <=? destLen then (Z_OK, source) else (Z_BUF_ERROR, []).

Definition uncompress (destLen : Z) (source : bytes) : Z * bytes :=
  if size source <=? destLen then (Z_OK, source)
  else (Z_BUF_ERROR, firstn (Z.to_nat destLen) source).

Definition zlib : Zlib := mkZlib compressBound compress uncompress.

End Stored.

(* ================================================================== *)
(** ** Concrete inputs                                                 *)
(* ================================================================== *)


(** Twenty bytes 01 followed by 02 03, and its run-length stream. *)
Definition sample_buffer : bytes := repeat x01 20 ++ [x02; x03].
Definition sample_stream : bytes := [x14; x01; x01; x02; x01; x03].

(** A stream of two bytes whose content is twenty bytes long. *)
Definition long_run_stream : bytes := [x14; x07].
Definition long_run : bytes := repeat x07 20.

(** Twelve pixels of a 4 x 3 single-layer image; four pixels and four
    transform values of a 2 x 2 double-layer image. *)
Definition pixels_4x3 : bytes :=
  [x01; x02; x03; x04; x05; x06; x07; x08; x09; x0a; x0b; x0c].
Definition planes_2x2 : bytes := [x0a; x0b; x0c; x0d; x01; x00; x02; x00].

(** A buffer of 2^32 zero bytes (4 GiB). *)
Definition four_GiB : bytes := repeat x00 (Z.to_nat (2 ^ 32)).

(** 2^28 runs of fifteen zero bytes: a stream of 2^29 bytes (512 MiB)
    whose content has 15 * 2^28 bytes (3.75 GiB). *)
Definition fifteen_zeros : bytes := [x0f; x00].
Definition wide_stream : bytes := concat (repeat fifteen_zeros (Z.to_nat (2 ^ 28))).
Definition wide_content : bytes := repeat x00 (15 * Z.to_nat (2 ^ 28)).

(** One byte that is not a compressed stream. *)
Definition garbage : bytes := [x00].

(** Framed blocks in a little-endian memory stream: one whose
    compressed-size field is 0, one with format version 1, and one
    whose raw-size field (5) is not the length of its content (3). *)
Definition block_without_payload : StreamBuf :=
  mkStreamBuf [x05; x00; x00; x00; x00; x00; x00; x00; x00; x00; x00; x00]
              false false.
Definition block_of_version_1 : StreamBuf :=
  mkStreamBuf [x05; x00; x00; x00; x02; x00; x00; x00; x01; x00; x00; x00;
               x05; x07] false false.
Definition block_of_wrong_size : StreamBuf :=
  mkStreamBuf [x05; x00; x00; x00; x02; x00; x00; x00; x00; x00; x00; x00;
               x03; x07] false false.

(** A buffer of 2^30 zero bytes (1 GiB). *)
Definition one_GiB : bytes := repeat x00 (Z.to_nat (2 ^ 30)).

(** The framed block of [sample_buffer] in a little-endian memory
    stream, followed by two more bytes. *)
Definition block_of_sample : StreamBuf :=
  mkStreamBuf ([x16; x00; x00; x00; x06; x00; x00; x00; x00; x00; x00; x00]
               ++ sample_stream ++ [xaa; xbb]) false false.

(* ================================================================== *)
(** ** Vocabulary of the specification                                 *)
(* ================================================================== *)

(** The five writes of a framed block, applied in order to a stream:
    raw length, compressed length, format version, reserved field,
    payload. *)
Definition framed {O : Type} `{OStreamBase O}
  (srcSize : Z) (zip : bytes) (outputStream : O) : O :=
  putRaw zip
    (put16 0
       (put16 FORMAT_VERSION_0
          (put32 (to_uint32 (size zip))
             (put32 (to_uint32 srcSize) outputStream)))).

(** The fields of a framed block as [unzipStream] reads them off an
    input stream: the two 32-bit sizes, the 16-bit version, and, past
    the two reserved bytes, the payload. *)
Definition read_rawSize {I : Type} `{IStreamBase I} (s : I) : Z :=
  fst (get32 s).
Definition read_zipSize {I : Type} `{IStreamBase I} (s : I) : Z :=
  fst (get32 (snd (get32 s))).
Definition read_version {I : Type} `{IStreamBase I} (s : I) : Z :=
  fst (get16 (snd (get32 (snd (get32 s))))).
Definition read_zip {I : Type} `{IStreamBase I} (s : I) : bytes :=
  fst (getRaw (read_zipSize s)
              (skip 2 (snd (get16 (snd (get32 (snd (get32 s)))))))).

Definition read_rest {I : Type} `{IStreamBase I} (s : I) : I :=
  snd (getRaw (read_zipSize s)
              (skip 2 (snd (get16 (snd (get32 (snd (get32 s)))))))).

(** The bytes of a framed block in a memory stream of byte order [be]:
    raw size and compressed size on 4 bytes each, version 0 and the
    reserved field on 2 bytes each, then the payload. *)
Definition frame_bytes (be : bool) (rawSize : Z) (zip : bytes) : bytes :=
  encode_int be 4 rawSize
  ++ encode_int be 4 (size zip)
  ++ encode_int be 2 FORMAT_VERSION_0
  ++ encode_int be 2 0
  ++ zip.

(** [c] is a valid compressed stream whose content is [d]: into a
    destination of at least one byte, [uncompress] succeeds with [d]
    when the destination can hold it, and reports [Z_BUF_ERROR] when it
    cannot (zlib.h, uncompress).  Nothing is asked of a destination of
    length 0, for which zlib answers otherwise and which [unzipData]
    never passes. *)
Definition inflates (zlib : Zlib) (c d : bytes) : Prop :=
  forall cap : Z,
    0 < cap ->
    (size d <= cap -> uncompress zlib cap c = (Z_OK, d))
    /\ (cap < size d -> fst (uncompress zlib cap c) = Z_BUF_ERROR).

(** [compress] turns [B] into [c] in a destination of the size that
    [compressBound] gives, and [c] is a non-empty stream that fits in
    it (zlib.h, compress and compressBound). *)
Definition deflates (zlib : Zlib) (B c : bytes) : Prop :=
  compress zlib (compressBound zlib (size B)) B = (Z_OK, c)
  /\ 0 < size c <= compressBound zlib (size B).

(** [B] is a buffer that [zipStreamBuf] can frame and [unzipStream] can
    read back: non-empty, compressed by the library to [c] and
    decompressed back from [c] into a destination of the length of [B],
    with [compressBound] of its length representable in [size_t] and
    [uLong] and both lengths representable in 32 bits. *)
Definition framable (P : Platform) (zlib : Zlib) (B c : bytes) : Prop :=
  B <> []
  /\ deflates zlib B c
  /\ uncompress zlib (size B) c = (Z_OK, B)
  /\ compressBound zlib (size B) <= Z.min (SIZE_MAX P) (ULONG_MAX P)
  /\ size B <= UINT32_MAX
  /\ size c <= UINT32_MAX.

(** The size of the first buffer of [unzipData]: the hint, or the
    guess when the hint is 0. *)
Definition first_size (P : Platform) (srcSize realSize : Z) : Z :=
  if realSize =? 0 then initial_guess P srcSize else realSize.

(** What [unzipData] does once its loop is left. *)
Definition after_loop (P : Platform) (e : LoopExit) : M bytes :=
  match e with
  | Return v => ret v
  | Break ret_ res dstSizeULong =>
      if negb (ret_ =? Z_OK) then
        ERROR_LOG_code "zlib error: " ret_ ;;; ret []
      else ret (resize (to_size_t P dstSizeULong) res)
  end.

(** The size of one plane in [CreateImageFromZlib], from the
    decompressed bytes. *)
Definition plane_size (doubleLayer : bool) (d : bytes) : Z :=
  if doubleLayer then size d / 2 else size d.

(** The area as [CreateImageFromZlib] computes it:
    [static_cast<size_t>( width ) * height], in [size_t] arithmetic. *)
Definition area (P : Platform) (width height : Z) : Z :=
  to_size_t P (to_size_t P width * to_size_t P height).

(** The image [CreateImageFromZlib] builds once every check passed. *)
Definition built_image (width height : Z) (doubleLayer : bool) (d : bytes) : Image :=
  let out := Image_default in
  let out := if negb doubleLayer then _disableTransformLayer out else out in
  let out := Image_resize width height out in
  let out := set_image (memcpy (image out) d (plane_size doubleLayer d)) out in
  if doubleLayer then
    set_transform
      (memcpy (transform out) (skipn (Z.to_nat (plane_size doubleLayer d)) d)
              (plane_size doubleLayer d)) out
  else out.

(** What [CreateImageFromZlib] returns for the decompressed bytes [d]. *)
Definition image_of (P : Platform) (width height : Z) (doubleLayer : bool)
  (d : bytes) : Image :=
  if doubleLayer && (Z.land (size d) 1 =? 1) then Image_default
  else if negb (area P width height =? plane_size doubleLayer d) then Image_default
       else built_image width height doubleLayer d.

(** [m] with event [e] put in front of its trace. *)
Definition tell {A : Type} (e : Event) (m : M A) : M A :=
  match m with
  | None => None
  | Some (a, t) => Some (a, e :: t)
  end.

(** Every element is positive and is followed by its double. *)
Fixpoint doubling (caps : list Z) : Prop :=
  match caps with
  | [] => True
  | x :: rest =>
      0 < x /\ match rest with [] => True | y :: _ => y = 2 * x end
      /\ doubling rest
  end.

(** The calls [uncompress( _, s * 2^j, c )] for j = 0 .. k. *)
Definition retries (c : bytes) (s : Z) (k : nat) : Trace :=
  map (fun j => CallUncompress (s * 2 ^ Z.of_nat j) c) (seq 0 (S k)).

(** Of the sizes s, 2s, 4s, ... the first that holds [need] bytes is
    [s * 2^k]. *)
Definition first_fit (s need : Z) (k : nat) : Prop :=
  need <= s * 2 ^ Z.of_nat k
  /\ forall j : nat, (j < k)%nat -> s * 2 ^ Z.of_nat j < need.

(** [unzipData] can bring a first buffer of size [s] to the size
    [s * 2^k]: that size is representable in [uLong] (so the first size
    is, too) and, when it is reached by doubling, it is at most
    [max_size].  These are the guards of lines 69, 79 and 87. *)
Definition can_grow (P : Platform) (s : Z) (k : nat) : Prop :=
  s * 2 ^ Z.of_nat k <= ULONG_MAX P
  /\ (k = 0%nat \/ s * 2 ^ Z.of_nat k <= vector_max_size P).

(* ================================================================== *)
(** * Properties                                                       *)
(* ================================================================== *)

(** ** Vectors and conversions *)

Lemma size_nonneg {A : Type} (v : list A) : 0 <= size v.
Proof. unfold size. lia. Qed.

Lemma size_nil {A : Type} : size (@nil A) = 0.
Proof. reflexivity. Qed.

Lemma size_app {A : Type} (u v : list A) : size (u ++ v) = size u + size v.
Proof. unfold size. rewrite length_app. lia. Qed.

Lemma size_zero_nil {A : Type} (v : list A) : size v = 0 -> v = [].
Proof. destruct v; [reflexivity | unfold size; simpl; lia]. Qed.

Lemma size_vector_n (n : Z) : 0 <= n -> size (vector_n n) = n.
Proof. intros Hn. unfold size, vector_n. rewrite repeat_length. lia. Qed.

Lemma size_resize (n : Z) (v : bytes) : 0 <= n -> size (resize n v) = n.
Proof.
  intros Hn. unfold size, resize.
  rewrite length_app, length_firstn, repeat_length. lia.
Qed.

Lemma size_store (dest out : bytes) : size (store dest out) = size dest.
Proof.
  unfold size, store. rewrite length_app, length_firstn, length_skipn. lia.
Qed.

(** Shrinking the buffer to the reported length leaves what the callee
    stored, provided it stored no more than the buffer holds. *)
Lemma resize_store (res out : bytes) :
  size out <= size res -> resize (size out) (store res out) = out.
Proof.
  unfold size, resize, store. intros Hle.
  rewrite Nat2Z.id.
  rewrite firstn_all2 with (l := out) by lia.
  rewrite firstn_app, firstn_all, Nat.sub_diag, firstn_O, app_nil_r.
  rewrite length_app, length_skipn.
  replace (length out - (length out + (length res - length out)))%nat with 0%nat by lia.
  apply app_nil_r.
Qed.

Lemma read_n_all (mem : bytes) : read_n mem (size mem) = mem.
Proof. unfold read_n, size. rewrite Nat2Z.id. apply firstn_all. Qed.

Lemma to_uLong_id (P : Platform) (x : Z) :
  0 <= x <= ULONG_MAX P -> to_uLong P x = x.
Proof. intros H. unfold to_uLong. apply Z.mod_small. lia. Qed.

Lemma to_size_t_id (P : Platform) (x : Z) :
  0 <= x <= SIZE_MAX P -> to_size_t P x = x.
Proof. intros H. unfold to_size_t. apply Z.mod_small. lia. Qed.

Lemma to_uint32_id (x : Z) : 0 <= x <= UINT32_MAX -> to_uint32 x = x.
Proof. intros H. unfold to_uint32. apply Z.mod_small. lia. Qed.

Lemma empty_true_iff (v : bytes) : empty v = true <-> v = [].
Proof. destruct v; simpl; split; congruence. Qed.

Lemma empty_false_iff (v : bytes) : empty v = false <-> v <> [].
Proof. destruct v; simpl; split; congruence. Qed.

(** ** Degenerate inputs *)

(** C9: a call with a null source pointer or with source length zero
    returns an empty vector, and its trace is empty: neither
    [compressBound], [compress] nor [uncompress] is called (and nothing
    is logged).  This holds for [unzipData] with any size hint and any
    fuel, and for [zipData]. *)
Theorem degenerate_input_returns_empty_without_library
  (P : Platform) (zlib : Zlib) (fuel : nat) (src : option bytes)
  (srcSize realSize : Z) :
  unzipData P zlib fuel None srcSize realSize = Some ([], [])
  /\ unzipData P zlib fuel src 0 realSize = Some ([], [])
  /\ zipData P zlib None srcSize = Some ([], [])
  /\ zipData P zlib src 0 = Some ([], []).
Proof.
  repeat split; try reflexivity; destruct src; reflexivity.
Qed.

(** ** Framing: the writer *)

Section Writer.

Context (P : Platform) (zlib : Zlib) {O : Type} `{OStreamBase O}.

Lemma zipStreamBuf_frames
  (inputStream : IStreamBuf) (outputStream : O) (zip : bytes) (t : Trace) :
  zipData P zlib (data inputStream) (buf_size inputStream) = Some (zip, t) ->
  zip <> [] ->
  zipStreamBuf P zlib inputStream outputStream
  = Some ((negb (fail (framed (buf_size inputStream) zip outputStream)),
           framed (buf_size inputStream) zip outputStream), t).
Proof.
  intros Hzip Hne.
  unfold zipStreamBuf. rewrite Hzip. cbn [bind].
  apply empty_false_iff in Hne. rewrite Hne.
  cbn [ret]. rewrite app_nil_r. reflexivity.
Qed.

(** C7: when compression produced bytes, [zipStreamBuf] performs on the
    output stream, in this order, [put32] of the source length (as a
    32-bit value), [put32] of the compressed length, [put16] of format
    version 0, [put16] of 0 and [putRaw] of the compressed bytes; its
    result is [false] exactly when the stream reports a fault after
    these writes. *)
Theorem zipStreamBuf_writes_header_then_payload
  (inputStream : IStreamBuf) (outputStream : O) (zip : bytes) (t : Trace) :
  zipData P zlib (data inputStream) (buf_size inputStream) = Some (zip, t) ->
  zip <> [] ->
  exists ok : bool,
    zipStreamBuf P zlib inputStream outputStream
    = Some ((ok, framed (buf_size inputStream) zip outputStream), t)
    /\ (ok = false <-> fail (framed (buf_size inputStream) zip outputStream) = true).
Proof.
  intros Hzip Hne.
  exists (negb (fail (framed (buf_size inputStream) zip outputStream))).
  split.
  - apply zipStreamBuf_frames; assumption.
  - destruct (fail _); simpl; split; congruence.
Qed.

(** Over all inputs: the result is [false] when compression gave
    nothing, and otherwise when the stream is in fault after the
    writes. *)
Lemma zipStreamBuf_false_iff
  (inputStream : IStreamBuf) (outputStream : O) (zip : bytes) (t : Trace) :
  zipData P zlib (data inputStream) (buf_size inputStream) = Some (zip, t) ->
  exists (ok : bool) (out' : O),
    zipStreamBuf P zlib inputStream outputStream = Some ((ok, out'), t)
    /\ (ok = false
        <-> zip = [] \/ fail (framed (buf_size inputStream) zip outputStream) = true).
Proof.
  intros Hzip. destruct zip as [| b zip].
  - exists false, outputStream. split; [| tauto].
    unfold zipStreamBuf. rewrite Hzip. cbn. rewrite app_nil_r. reflexivity.
  - eexists _, _. split.
    + apply zipStreamBuf_frames; [exact Hzip | discriminate].
    + destruct (fail _); cbn; split; try tauto; try congruence.
      intros [E | E]; congruence.
Qed.

(** C10: when compression yields an empty vector, [zipStreamBuf]
    returns [false] and hands back the output stream it was given: no
    [put32], [put16] or [putRaw] is applied to it. *)
Theorem zipStreamBuf_empty_zip_writes_nothing
  (inputStream : IStreamBuf) (outputStream : O) (t : Trace) :
  zipData P zlib (data inputStream) (buf_size inputStream) = Some ([], t) ->
  zipStreamBuf P zlib inputStream outputStream = Some ((false, outputStream), t).
Proof.
  intros Hzip. unfold zipStreamBuf. rewrite Hzip. cbn.
  rewrite app_nil_r. reflexivity.
Qed.

End Writer.

(** ** The retry loop of unzipData *)

Section Codec.

Variable P : Platform.
Variable zlib : Zlib.
Hypothesis P_ok : PlatformOk P.

Lemma bind_emit {A : Type} (e : Event) (k : unit -> M A) :
  bind (emit e) k = tell e (k tt).
Proof. unfold bind, emit, tell. destruct (k tt) as [[a t] |]; reflexivity. Qed.

Lemma bind_ret_l {A B : Type} (a : A) (k : A -> M B) : bind (ret a) k = k a.
Proof. unfold bind, ret. destruct (k a) as [[b t] |]; reflexivity. Qed.

Lemma bind_ret_r {A : Type} (m : M A) : bind m ret = m.
Proof.
  destruct m as [[a t] |]; [| reflexivity].
  unfold bind, ret. rewrite app_nil_r. reflexivity.
Qed.

Lemma bind_call_uncompress {A : Type} (dst : Z) (source : bytes)
  (k : Z * bytes -> M A) :
  bind (call_uncompress zlib dst source) k
  = tell (CallUncompress dst source) (k (uncompress zlib dst source)).
Proof.
  unfold call_uncompress. unfold bind at 2. cbn [emit ret app].
  unfold bind, tell. destruct (k _) as [[a t] |]; reflexivity.
Qed.

(** The body of the loop, one turn unfolded. *)
Lemma unzip_loop_step (fuel : nat) (source res : bytes) (dst : Z) :
  unzip_loop P zlib (S fuel) source res dst
  = tell (CallUncompress dst source)
      (let res1 := store res (snd (uncompress zlib dst source)) in
       if Z_BUF_ERROR =? fst (uncompress zlib dst source) then
         if vector_max_size P / 2 <? size res1 then
           Some (Return [],
                 [ErrorLog "The size of the decompressed data is too large"])
         else
           let res2 := resize (to_size_t P (size res1 * 2)) res1 in
           if negb (to_uLong P (size res2) =? size res2) then
             Some (Return [],
                   [ErrorLog "The size of the decompressed data is too large"])
           else unzip_loop P zlib fuel source res2 (to_uLong P (size res2))
       else Some (Break (fst (uncompress zlib dst source)) res1
                        (size (snd (uncompress zlib dst source))), [])).
Proof.
  cbn [unzip_loop]. rewrite bind_call_uncompress.
  destruct (uncompress zlib dst source) as [ret_ out]. cbn [fst snd].
  repeat match goal with |- context [if ?c then _ else _] => destruct c end;
    reflexivity.
Qed.

(** One turn of the loop when [uncompress] does not ask for more room. *)
Lemma unzip_loop_break (fuel : nat) (source res : bytes) (dst ret_ : Z) (out : bytes) :
  uncompress zlib dst source = (ret_, out) ->
  ret_ <> Z_BUF_ERROR ->
  unzip_loop P zlib (S fuel) source res dst
  = Some (Break ret_ (store res out) (size out), [CallUncompress dst source]).
Proof.
  intros Hcall Hret. rewrite unzip_loop_step, Hcall. cbn [fst snd].
  destruct (Z.eqb_spec Z_BUF_ERROR ret_) as [E | _]; [congruence |].
  reflexivity.
Qed.

(** One turn of the loop when [uncompress] asks for more room and the
    doubled size is still representable. *)
Lemma unzip_loop_retry (fuel : nat) (source res : bytes) :
  fst (uncompress zlib (size res) source) = Z_BUF_ERROR ->
  size res <= vector_max_size P / 2 ->
  2 * size res <= ULONG_MAX P ->
  exists res' : bytes,
    size res' = 2 * size res
    /\ unzip_loop P zlib (S fuel) source res (size res)
       = tell (CallUncompress (size res) source)
              (unzip_loop P zlib fuel source res' (size res')).
Proof.
  intros Hcall Hhalf Hulong.
  pose proof (size_nonneg res) as Hs.
  pose proof (max_size_pos P P_ok). pose proof (max_size_fits P P_ok).
  assert (Hmax : 2 * size res <= vector_max_size P).
  { pose proof (Z.mul_div_le (vector_max_size P) 2 ltac:(lia)). lia. }
  exists (resize (2 * size res) (store res (snd (uncompress zlib (size res) source)))).
  split; [apply size_resize; lia |].
  rewrite unzip_loop_step, Hcall. cbv zeta.
  rewrite Z.eqb_refl, size_store.
  destruct (Z.ltb_spec (vector_max_size P / 2) (size res)) as [Hlt | _]; [lia |].
  rewrite (Z.mul_comm (size res) 2).
  rewrite to_size_t_id by lia.
  rewrite size_resize by lia.
  rewrite to_uLong_id by lia.
  rewrite Z.eqb_refl. reflexivity.
Qed.

(** Termination: with a non-empty buffer and fuel for the doublings
    that keep the size at most [max_size / 2], the loop returns,
    whatever the library answers. *)
Lemma unzip_loop_terminates (source : bytes) (fuel : nat) :
  forall res : bytes,
    0 < size res ->
    vector_max_size P / 2 < size res * 2 ^ Z.of_nat fuel ->
    exists e t, unzip_loop P zlib (S fuel) source res (size res) = Some (e, t).
Proof.
  pose proof (max_size_pos P P_ok) as Hpos.
  pose proof (max_size_fits P P_ok) as Hfit.
  induction fuel as [| fuel IH]; intros res Hs Hfuel;
    rewrite unzip_loop_step; cbv zeta; rewrite size_store;
    (destruct (Z.eqb_spec Z_BUF_ERROR (fst (uncompress zlib (size res) source)))
       as [Hbuf | Hother];
      [| cbn [tell]; eauto]);
    (destruct (Z.ltb_spec (vector_max_size P / 2) (size res)) as [Hgt | Hle];
      [cbn [tell]; eauto |]).
  - (* no doubling left: the size already exceeds max_size / 2 *)
    cbn in Hfuel. lia.
  - assert (Hmax : size res * 2 <= vector_max_size P).
    { pose proof (Z.mul_div_le (vector_max_size P) 2 ltac:(lia)). lia. }
    rewrite to_size_t_id by lia.
    rewrite size_resize by lia.
    destruct (Z.eqb_spec (to_uLong P (size res * 2)) (size res * 2)) as [E | NE];
      [| cbn [negb tell]; eauto].
    cbn [negb]. rewrite E.
    set (res' := resize (size res * 2) _).
    assert (Hs' : size res' = size res * 2) by (apply size_resize; lia).
    destruct (IH res') as (e & t & Hrun).
    + lia.
    + rewrite Hs'. rewrite Nat2Z.inj_succ, Z.pow_succ_r in Hfuel by lia. lia.
    + rewrite Hs' in Hrun. rewrite Hrun. cbn [tell]. eauto.
Qed.

Lemma tell_Some {A : Type} (e : Event) (m : M A) (a : A) (t : Trace) :
  tell e m = Some (a, t) -> exists t', m = Some (a, t') /\ t = e :: t'.
Proof.
  destruct m as [[a' t'] |]; cbn [tell]; intros E; [| discriminate].
  injection E as -> <-. eauto.
Qed.

Lemma half_max_size (s : Z) :
  s <= vector_max_size P / 2 <-> 2 * s <= vector_max_size P.
Proof.
  split; intros Hs.
  - pose proof (Z.mul_div_le (vector_max_size P) 2 ltac:(lia)). lia.
  - apply Z.div_le_lower_bound; lia.
Qed.

Lemma last_cons {A : Type} (x d : A) (l : list A) :
  last (x :: l) d = last l x.
Proof.
  revert x d. induction l as [| y l IH]; intros x d; [reflexivity |].
  change (last (y :: l) d = last (y :: l) x). rewrite !IH. reflexivity.
Qed.

(** What a finished run of the loop looks like, whatever the library
    answers: the capacities tried start at the buffer size and double;
    the loop is left through [return {}] only after a [Z_BUF_ERROR], and
    through its condition only with the answer of the last call. *)
Lemma unzip_loop_spec (source : bytes) (fuel : nat) :
  forall (res : bytes) (e : LoopExit) (t : Trace),
    0 < size res ->
    unzip_loop P zlib fuel source res (size res) = Some (e, t) ->
    exists rest : list Z,
      uncompress_caps t = size res :: rest
      /\ doubling (size res :: rest)
      /\ match e with
         | Return v =>
             v = []
             /\ fst (uncompress zlib (last rest (size res)) source) = Z_BUF_ERROR
         | Break ret_ res' dst' =>
             ret_ <> Z_BUF_ERROR
             /\ fst (uncompress zlib (last rest (size res)) source) = ret_
             /\ dst' = size (snd (uncompress zlib (last rest (size res)) source))
             /\ exists buf, size buf = last rest (size res)
                  /\ res' = store buf (snd (uncompress zlib (last rest (size res)) source))
         end.
Proof.
  pose proof (max_size_pos P P_ok) as Hpos.
  pose proof (max_size_fits P P_ok) as Hfit.
  induction fuel as [| fuel IH]; intros res e t Hs Hrun; [discriminate |].
  rewrite unzip_loop_step in Hrun. cbv zeta in Hrun.
  apply tell_Some in Hrun as (t' & Hrun & ->). cbn [uncompress_caps].
  rewrite size_store in Hrun.
  destruct (Z.eqb_spec Z_BUF_ERROR (fst (uncompress zlib (size res) source)))
    as [Hbuf | Hother].
  - destruct (Z.ltb_spec (vector_max_size P / 2) (size res)) as [Hgt | Hle].
    { injection Hrun as <- <-. exists []. cbn. repeat split; auto. }
    apply half_max_size in Hle.
    rewrite (Z.mul_comm (size res) 2) in Hrun.
    rewrite to_size_t_id in Hrun by lia.
    rewrite size_resize in Hrun by lia.
    destruct (Z.eqb_spec (to_uLong P (2 * size res)) (2 * size res)) as [E | NE];
      cbn [negb] in Hrun.
    + rewrite E in Hrun.
      set (res' := resize (2 * size res) _) in Hrun.
      assert (Hs' : size res' = 2 * size res) by (apply size_resize; lia).
      rewrite <- Hs' in Hrun.
      apply IH in Hrun as (rest & Hcaps & Hdbl & Hexit); [| lia].
      exists (size res' :: rest). rewrite Hcaps.
      split; [reflexivity |]. split.
      * change (0 < size res /\ size res' = 2 * size res
                /\ doubling (size res' :: rest)).
        auto.
      * rewrite last_cons. exact Hexit.
    + injection Hrun as <- <-. exists []. cbn. repeat split; auto.
  - injection Hrun as <- <-. exists []. cbn [uncompress_caps last doubling].
    repeat split; auto. exists res. split; reflexivity.
Qed.

Lemma retries_S (c : bytes) (s : Z) (k : nat) :
  retries c s (S k) = CallUncompress s c :: retries c (2 * s) k.
Proof.
  unfold retries.
  change (seq 0 (S (S k))) with (0%nat :: seq 1 (S k)).
  rewrite <- seq_shift, map_cons, map_map.
  f_equal.
  - f_equal. change (2 ^ Z.of_nat 0) with 1. lia.
  - apply map_ext. intros j. f_equal.
    rewrite Nat2Z.inj_succ, Z.pow_succ_r by lia. lia.
Qed.

Lemma retries_0 (c : bytes) (s : Z) : retries c s 0 = [CallUncompress s c].
Proof.
  unfold retries. cbn [seq map]. change (2 ^ Z.of_nat 0) with 1.
  rewrite Z.mul_1_r. reflexivity.
Qed.

Lemma pow2_0 (s : Z) : s * 2 ^ Z.of_nat 0 = s.
Proof. change (2 ^ Z.of_nat 0) with 1. apply Z.mul_1_r. Qed.

Lemma pow2_succ (s : Z) (j : nat) :
  s * 2 ^ Z.of_nat (S j) = 2 * s * 2 ^ Z.of_nat j.
Proof. rewrite Nat2Z.inj_succ, Z.pow_succ_r by lia. lia. Qed.

Lemma pow2_mono (s : Z) (i j : nat) :
  0 < s -> (i <= j)%nat -> s * 2 ^ Z.of_nat i <= s * 2 ^ Z.of_nat j.
Proof.
  intros Hs Hij. apply Z.mul_le_mono_nonneg_l; [lia |].
  apply Z.pow_le_mono_r; lia.
Qed.

Lemma pow2_pos (s : Z) (j : nat) : 0 < s -> 0 < s * 2 ^ Z.of_nat j.
Proof. intros Hs. apply Z.mul_pos_pos; [exact Hs | apply Z.pow_pos_nonneg; lia]. Qed.

(** A length that the conversion to [uLong] changes is beyond
    [ULONG_MAX]. *)
Lemma to_uLong_fixed (x : Z) : 0 <= x -> to_uLong P x <> x -> ULONG_MAX P < x.
Proof.
  intros Hx Hne. destruct (Z.le_gt_cases x (ULONG_MAX P)) as [Hle |]; [| lia].
  exfalso. apply Hne. apply to_uLong_id. lia.
Qed.

Lemma to_uLong_of_large (x : Z) : ULONG_MAX P < x -> to_uLong P x <> x.
Proof.
  intros Hbig. unfold to_uLong.
  pose proof (ulong_holds_uint32 P P_ok) as HU. unfold UINT32_MAX in HU.
  pose proof (Z.mod_pos_bound x (ULONG_MAX P + 1) ltac:(lia)). lia.
Qed.

(** Every finished run of the loop, whatever the library answers.  The
    calls are those with the capacities s, 2s, ..., s * 2^n for some n;
    each call before the last answered [Z_BUF_ERROR] and its doubled
    capacity passed both guards.  The loop is left through [return {}]
    exactly when the last call answered [Z_BUF_ERROR] and the doubled
    capacity is beyond [max_size] or [ULONG_MAX], and through its
    condition with the answer of the last call otherwise. *)
Lemma unzip_loop_run (source : bytes) (fuel : nat) :
  forall (res : bytes) (e : LoopExit) (t : Trace),
    0 < size res ->
    unzip_loop P zlib fuel source res (size res) = Some (e, t) ->
    exists n : nat,
      (forall j : nat, (j < n)%nat ->
         fst (uncompress zlib (size res * 2 ^ Z.of_nat j) source) = Z_BUF_ERROR
         /\ size res * 2 ^ Z.of_nat (S j)
            <= Z.min (vector_max_size P) (ULONG_MAX P))
      /\ match e with
         | Return v =>
             v = []
             /\ t = retries source (size res) n
                    ++ [ErrorLog "The size of the decompressed data is too large"]
             /\ fst (uncompress zlib (size res * 2 ^ Z.of_nat n) source)
                = Z_BUF_ERROR
             /\ Z.min (vector_max_size P) (ULONG_MAX P)
                < size res * 2 ^ Z.of_nat (S n)
         | Break ret_ res' dst' =>
             t = retries source (size res) n
             /\ ret_ <> Z_BUF_ERROR
             /\ fst (uncompress zlib (size res * 2 ^ Z.of_nat n) source) = ret_
             /\ dst' = size (snd (uncompress zlib (size res * 2 ^ Z.of_nat n) source))
             /\ exists buf : bytes,
                  size buf = size res * 2 ^ Z.of_nat n
                  /\ res' = store buf (snd (uncompress zlib
                                              (size res * 2 ^ Z.of_nat n) source))
         end.
Proof.
  pose proof (max_size_pos P P_ok) as Hpos.
  pose proof (max_size_fits P P_ok) as Hfit.
  induction fuel as [| fuel IH]; intros res e t Hs Hrun; [discriminate |].
  rewrite unzip_loop_step in Hrun. cbv zeta in Hrun.
  apply tell_Some in Hrun as (t' & Hrun & ->).
  rewrite size_store in Hrun.
  destruct (Z.eqb_spec Z_BUF_ERROR (fst (uncompress zlib (size res) source)))
    as [Hbuf | Hother].
  - destruct (Z.ltb_spec (vector_max_size P / 2) (size res)) as [Hgt | Hle].
    { injection Hrun as <- <-. exists 0%nat.
      split; [intros j Hj; lia |].
      rewrite retries_0, pow2_succ, !pow2_0.
      repeat split; auto.
      assert (~ 2 * size res <= vector_max_size P)
        by (intros Hc; apply half_max_size in Hc; lia).
      lia. }
    apply half_max_size in Hle.
    rewrite (Z.mul_comm (size res) 2) in Hrun.
    rewrite to_size_t_id in Hrun by lia.
    rewrite size_resize in Hrun by lia.
    destruct (Z.eqb_spec (to_uLong P (2 * size res)) (2 * size res)) as [E | NE];
      cbn [negb] in Hrun.
    + rewrite E in Hrun.
      set (res' := resize (2 * size res) _) in Hrun.
      assert (Hs' : size res' = 2 * size res) by (apply size_resize; lia).
      rewrite <- Hs' in Hrun.
      apply IH in Hrun as (n & Hbefore & Hexit); [| lia].
      rewrite Hs' in Hbefore, Hexit.
      assert (HU : 2 * size res <= ULONG_MAX P).
      { destruct (Z.le_gt_cases (2 * size res) (ULONG_MAX P)) as [| Hbig]; [assumption |].
        apply to_uLong_of_large in Hbig. contradiction. }
      exists (S n). split.
      * intros [| j] Hj.
        -- rewrite pow2_succ, !pow2_0. split; [auto | lia].
        -- rewrite (pow2_succ (size res) j), (pow2_succ (size res) (S j)).
           apply Hbefore. lia.
      * rewrite retries_S.
        destruct e as [v | ret_ res'' dst''].
        -- destruct Hexit as (-> & -> & Hlast & Hbig).
           rewrite (pow2_succ (size res) n), (pow2_succ (size res) (S n)).
           repeat split; auto.
        -- destruct Hexit as (-> & Hnb & Hlast & Hdst & buf & Hbuf' & Hres).
           rewrite (pow2_succ (size res) n).
           repeat split; auto. exists buf. auto.
    + injection Hrun as <- <-. exists 0%nat.
      split; [intros j Hj; lia |].
      rewrite retries_0, pow2_succ, !pow2_0.
      apply to_uLong_fixed in NE; [| lia].
      repeat split; auto. lia.
  - injection Hrun as <- <-. exists 0%nat.
    split; [intros j Hj; lia |].
    rewrite retries_0, !pow2_0.
    repeat split; auto. exists res. split; reflexivity.
Qed.

(** Some size of the sequence s, 2s, 4s, ... holds [need] bytes. *)
Lemma first_fit_exists (s need : Z) :
  0 < s -> exists k : nat, first_fit s need k.
Proof.
  intros Hs.
  assert (Hgen : forall (n : nat) (s' : Z),
             0 < s' -> need <= s' * 2 ^ Z.of_nat n ->
             exists k : nat, first_fit s' need k).
  { induction n as [| n IH]; intros s' Hs' Hn.
    - exists 0%nat. split; [exact Hn | intros j Hj; lia].
    - destruct (Z.le_gt_cases need s') as [Hle | Hgt].
      + exists 0%nat. split; [rewrite pow2_0; exact Hle | intros j Hj; lia].
      + rewrite pow2_succ in Hn.
        destruct (IH (2 * s') ltac:(lia) Hn) as (k & Hk & Hbelow).
        exists (S k). split; [rewrite pow2_succ; exact Hk |].
        intros [| j] Hj; [rewrite pow2_0; lia |].
        rewrite pow2_succ. apply Hbelow. lia. }
  apply (Hgen (Z.to_nat need) s Hs).
  destruct (Z.le_gt_cases need 0) as [Hle | Hgt].
  - pose proof (pow2_pos s (Z.to_nat need) Hs). lia.
  - rewrite Z2Nat.id by lia.
    pose proof (Z.pow_gt_lin_r 2 need ltac:(lia) ltac:(lia)). nia.
Qed.

(** The loop on a valid stream [c] with content [d], when [s * 2^k] is
    the first size that holds [d]: if every doubling up to that size
    passes the guards, the loop is left with [Z_OK] after the calls
    with capacities s .. s * 2^k and the buffer starts with [d]; if
    not, it is left through [return {}]. *)
Lemma unzip_loop_valid_stream (c d : bytes) (fuel k : nat)
  (res : bytes) (e : LoopExit) (t : Trace) :
  inflates zlib c d ->
  0 < size res ->
  first_fit (size res) (size d) k ->
  unzip_loop P zlib fuel c res (size res) = Some (e, t) ->
  (k = 0%nat
   \/ size res * 2 ^ Z.of_nat k <= Z.min (vector_max_size P) (ULONG_MAX P) ->
   t = retries c (size res) k
   /\ exists res' : bytes,
        e = Break Z_OK res' (size d) /\ resize (size d) res' = d)
  /\ ((0 < k)%nat
      /\ Z.min (vector_max_size P) (ULONG_MAX P) < size res * 2 ^ Z.of_nat k ->
      e = Return []).
Proof.
  intros Hinf Hs [Hk Hbelow] Hrun.
  destruct (unzip_loop_run c fuel res e t Hs Hrun) as (n & Hbefore & Hexit).
  assert (Hshort : forall j : nat,
             fst (uncompress zlib (size res * 2 ^ Z.of_nat j) c) <> Z_OK ->
             size res * 2 ^ Z.of_nat j < size d).
  { intros j Hcode.
    destruct (Z.le_gt_cases (size d) (size res * 2 ^ Z.of_nat j)) as [Hle |]; [| lia].
    destruct (Hinf _ (pow2_pos (size res) j Hs)) as [Hfits _].
    rewrite (Hfits Hle) in Hcode. contradiction. }
  assert (Hnk : (n <= k)%nat).
  { destruct (Nat.le_gt_cases n k) as [| Hlt]; [assumption |].
    destruct (Hbefore k Hlt) as [Hbuf _].
    specialize (Hshort k). rewrite Hbuf in Hshort.
    specialize (Hshort ltac:(discriminate)). lia. }
  destruct e as [v | ret_ res' dst'].
  - destruct Hexit as (-> & -> & Hlast & Hbig).
    specialize (Hshort n). rewrite Hlast in Hshort.
    specialize (Hshort ltac:(discriminate)).
    assert (Hlt : (n < k)%nat).
    { destruct (Nat.eq_dec n k) as [-> |]; lia. }
    pose proof (pow2_mono (size res) (S n) k Hs ltac:(lia)).
    split; [intros [-> | Hok]; lia | reflexivity].
  - destruct Hexit as (-> & Hnb & Hlast & -> & buf & Hbuf & ->).
    assert (Hfit : size d <= size res * 2 ^ Z.of_nat n).
    { destruct (Z.le_gt_cases (size d) (size res * 2 ^ Z.of_nat n)) as [| Hgt];
        [assumption |].
      destruct (Hinf _ (pow2_pos (size res) n Hs)) as [_ Hsmall].
      rewrite (Hsmall ltac:(lia)) in Hlast. congruence. }
    assert (n = k) as ->.
    { destruct (Nat.eq_dec n k) as [| Hne]; [assumption |].
      specialize (Hbelow n ltac:(lia)). lia. }
    destruct (Hinf _ (pow2_pos (size res) k Hs)) as [Hfits _].
    rewrite (Hfits Hfit) in *. cbn [fst snd] in *. subst ret_.
    split.
    + intros _. split; [reflexivity |].
      eexists. split; [reflexivity |].
      apply resize_store. lia.
    + intros [Hpos Hbig]. destruct k as [| k]; [lia |].
      destruct (Hbefore k ltac:(lia)) as [_ Hok]. lia.
Qed.

Lemma initial_guess_cases (srcSize : Z) :
  0 < srcSize ->
  (7 * srcSize <= vector_max_size P /\ initial_guess P srcSize = 7 * srcSize)
  \/ (vector_max_size P < 7 * srcSize /\ initial_guess P srcSize = srcSize).
Proof.
  intros Hs. unfold initial_guess.
  pose proof (max_size_pos P P_ok). pose proof (max_size_fits P P_ok).
  pose proof (Z.mul_div_le (vector_max_size P) 7 ltac:(lia)).
  pose proof (Z.mul_succ_div_gt (vector_max_size P) 7 ltac:(lia)).
  destruct (Z.ltb_spec (vector_max_size P / 7) srcSize); [right | left];
    (split; [lia |]); [reflexivity |].
  rewrite to_size_t_id by lia. lia.
Qed.

Lemma initial_guess_fits (srcSize : Z) :
  0 < srcSize <= SIZE_MAX P -> initial_guess P srcSize <= SIZE_MAX P.
Proof.
  intros Hs. pose proof (max_size_fits P P_ok).
  destruct (initial_guess_cases srcSize ltac:(lia)) as [[H1 ->] | [H1 ->]]; lia.
Qed.

Lemma first_size_pos (srcSize realSize : Z) :
  0 < srcSize -> 0 <= realSize -> 0 < first_size P srcSize realSize.
Proof.
  intros Hs Hr. unfold first_size.
  destruct (Z.eqb_spec realSize 0); [| lia].
  destruct (initial_guess_cases srcSize Hs) as [[_ ->] | [_ ->]]; lia.
Qed.

Lemma enough_fuel_spec (fuel : nat) (s : Z) :
  (enough_fuel P <= fuel)%nat -> 0 < s ->
  exists f : nat, fuel = S f /\ vector_max_size P / 2 < s * 2 ^ Z.of_nat f.
Proof.
  unfold enough_fuel. intros Hfuel Hs.
  pose proof (max_size_pos P P_ok) as Hpos.
  destruct fuel as [| f]; [lia |]. exists f. split; [reflexivity |].
  pose proof (Z.log2_nonneg (vector_max_size P)) as Hlog.
  destruct (Z.log2_spec _ Hpos) as [_ Hup].
  assert (Hpow : 2 ^ Z.succ (Z.log2 (vector_max_size P)) <= 2 ^ Z.of_nat f)
    by (apply Z.pow_le_mono_r; lia).
  assert (Hhalf : vector_max_size P / 2 <= vector_max_size P)
    by (apply Z.div_le_upper_bound; lia).
  nia.
Qed.

Lemma size_first_buffer (srcSize realSize : Z) :
  0 < srcSize -> 0 <= realSize ->
  size (if realSize =? 0
        then resize (initial_guess P srcSize) (vector_n realSize)
        else vector_n realSize)
  = first_size P srcSize realSize.
Proof.
  intros Hsrc Hreal.
  pose proof (first_size_pos srcSize realSize Hsrc Hreal) as Hpos.
  unfold first_size in *. destruct (realSize =? 0).
  - apply size_resize. lia.
  - apply size_vector_n. lia.
Qed.

(** [unzipData] past its four guards: the loop, entered with a buffer
    of the first size, then [after_loop]. *)
Lemma unzipData_enters_loop (fuel : nat) (mem : bytes) (srcSize realSize : Z) :
  0 < srcSize <= ULONG_MAX P ->
  0 <= realSize ->
  first_size P srcSize realSize <= ULONG_MAX P ->
  exists res : bytes,
    size res = first_size P srcSize realSize
    /\ unzipData P zlib fuel (Some mem) srcSize realSize
       = bind (unzip_loop P zlib fuel (read_n mem srcSize) res (size res))
              (after_loop P).
Proof.
  intros Hsrc Hreal Hfirst.
  pose proof (first_size_pos srcSize realSize ltac:(lia) Hreal) as Hpos.
  eexists. split; cycle 1.
  - unfold unzipData. cbv zeta.
    destruct (Z.eqb_spec srcSize 0) as [E | _]; [lia |].
    rewrite (to_uLong_id P srcSize) by lia. rewrite Z.eqb_refl. cbn [negb].
    match goal with
    | |- context [unzip_loop _ _ _ _ ?r _] => set (res := r)
    end.
    assert (Hsize : size res = first_size P srcSize realSize)
      by (apply size_first_buffer; lia).
    rewrite (to_uLong_id P (size res)) by lia.
    rewrite Z.eqb_refl. cbn [negb]. reflexivity.
  - apply size_first_buffer; lia.
Qed.

Lemma uncompress_caps_app (t u : Trace) :
  uncompress_caps (t ++ u) = uncompress_caps t ++ uncompress_caps u.
Proof.
  induction t as [| [] t IH]; cbn [app uncompress_caps]; rewrite ?IH; reflexivity.
Qed.

(** [unzipData] refuses, before any call of the library, a source or a
    first buffer whose length is not representable in [uLong]. *)
Lemma unzipData_refused (fuel : nat) (mem : bytes) (srcSize realSize : Z) :
  0 < srcSize -> 0 <= realSize ->
  ULONG_MAX P < srcSize \/ ULONG_MAX P < first_size P srcSize realSize ->
  exists t : Trace,
    uncompress_caps t = []
    /\ unzipData P zlib fuel (Some mem) srcSize realSize = Some ([], t).
Proof.
  intros Hsrc Hreal Hbig. unfold unzipData. cbv zeta.
  destruct (Z.eqb_spec srcSize 0); [lia |].
  destruct (Z.eqb_spec (to_uLong P srcSize) srcSize) as [E1 |]; cbn [negb];
    [| eexists; split; [| reflexivity]; reflexivity].
  destruct Hbig as [Hbig | Hbig];
    [apply to_uLong_of_large in Hbig; contradiction |].
  match goal with
  | |- context [unzip_loop _ _ _ _ ?r _] => set (res := r)
  end.
  assert (Hsize : size res = first_size P srcSize realSize)
    by (apply size_first_buffer; lia).
  rewrite Hsize.
  destruct (Z.eqb_spec (to_uLong P (first_size P srcSize realSize))
                       (first_size P srcSize realSize)) as [E2 |]; cbn [negb];
    [apply to_uLong_of_large in Hbig; contradiction |].
  eexists; split; [| reflexivity]; reflexivity.
Qed.

(** One call suffices when the first buffer holds what [uncompress]
    stores with [Z_OK]. *)
Lemma unzipData_one_call (fuel : nat) (c d : bytes) (realSize : Z) :
  0 < size c <= ULONG_MAX P ->
  0 <= realSize ->
  first_size P (size c) realSize <= Z.min (ULONG_MAX P) (SIZE_MAX P) ->
  uncompress zlib (first_size P (size c) realSize) c = (Z_OK, d) ->
  size d <= first_size P (size c) realSize ->
  unzipData P zlib (S fuel) (Some c) (size c) realSize
  = Some (d, [CallUncompress (first_size P (size c) realSize) c]).
Proof.
  intros Hc Hreal Hfirst Hcall Hd.
  pose proof (size_nonneg d) as Hd0.
  destruct (unzipData_enters_loop (S fuel) c (size c) realSize Hc Hreal ltac:(lia))
    as (res & Hres & ->).
  rewrite read_n_all, Hres.
  rewrite (unzip_loop_break fuel c res _ Z_OK d Hcall) by discriminate.
  cbn [bind after_loop]. rewrite Z.eqb_refl. cbn [negb ret app].
  rewrite (to_size_t_id P (size d)) by lia.
  rewrite resize_store by lia. reflexivity.
Qed.

(** [unzipData] on a valid stream [c] with content [d], when
    [s * 2^k] is the first of the sizes s, 2s, 4s, ... that holds [d],
    [s] being the first size: if the guards let the buffer grow to that
    size, the result is [d], after the calls of [uncompress] with the
    capacities s, 2s, ..., s * 2^k. *)
Lemma unzipData_valid_stream_ok (fuel : nat) (c d : bytes) (realSize : Z) (k : nat) :
  inflates zlib c d ->
  0 < size c <= ULONG_MAX P ->
  0 <= realSize ->
  first_fit (first_size P (size c) realSize) (size d) k ->
  can_grow P (first_size P (size c) realSize) k ->
  size d <= SIZE_MAX P ->
  (enough_fuel P <= fuel)%nat ->
  unzipData P zlib fuel (Some c) (size c) realSize
  = Some (d, retries c (first_size P (size c) realSize) k).
Proof.
  intros Hinf Hc Hreal Hfit [HU Hmax] Hd Hfuel.
  pose proof (first_size_pos (size c) realSize ltac:(lia) Hreal) as Hpos.
  pose proof (pow2_mono _ 0 k Hpos ltac:(lia)) as Hmono. rewrite pow2_0 in Hmono.
  pose proof (size_nonneg d) as Hd0.
  destruct (unzipData_enters_loop fuel c (size c) realSize Hc Hreal ltac:(lia))
    as (res & Hres & ->).
  rewrite read_n_all, <- Hres in *.
  destruct (enough_fuel_spec fuel (size res) Hfuel Hpos) as (f & -> & Hf).
  destruct (unzip_loop_terminates c f res Hpos Hf) as (e & t & Hrun).
  destruct (unzip_loop_valid_stream c d (S f) k res e t Hinf Hpos Hfit Hrun)
    as [Hok _].
  destruct Hok as (-> & res' & -> & Hout); [destruct Hmax; [auto | right; lia] |].
  rewrite Hrun. cbn [bind after_loop]. rewrite Z.eqb_refl. cbn [negb ret].
  rewrite (to_size_t_id P (size d)) by lia.
  rewrite Hout, app_nil_r. reflexivity.
Qed.

(** In every other case the result is the empty vector: the source or
    the first buffer is refused, or a doubling is. *)
Lemma unzipData_valid_stream_fails (fuel : nat) (c d : bytes) (realSize : Z) (k : nat) :
  inflates zlib c d ->
  c <> [] ->
  0 <= realSize ->
  first_fit (first_size P (size c) realSize) (size d) k ->
  ~ (size c <= ULONG_MAX P /\ can_grow P (first_size P (size c) realSize) k) ->
  (enough_fuel P <= fuel)%nat ->
  exists t : Trace,
    unzipData P zlib fuel (Some c) (size c) realSize = Some ([], t).
Proof.
  intros Hinf Hne Hreal Hfit Hnot Hfuel.
  assert (Hcpos : 0 < size c).
  { pose proof (size_nonneg c). destruct (Z.eq_dec (size c) 0) as [E |]; [| lia].
    apply size_zero_nil in E. contradiction. }
  pose proof (first_size_pos (size c) realSize Hcpos Hreal) as Hpos.
  destruct (Z.le_gt_cases (size c) (ULONG_MAX P)) as [Hc | Hc];
    [| destruct (unzipData_refused fuel c (size c) realSize Hcpos Hreal
                   ltac:(left; lia)) as (t & _ & Hrun); eauto].
  destruct (Z.le_gt_cases (first_size P (size c) realSize) (ULONG_MAX P)) as [Hf | Hf];
    [| destruct (unzipData_refused fuel c (size c) realSize Hcpos Hreal
                   ltac:(right; lia)) as (t & _ & Hrun); eauto].
  assert (Hbig : (0 < k)%nat
                 /\ Z.min (vector_max_size P) (ULONG_MAX P)
                    < first_size P (size c) realSize * 2 ^ Z.of_nat k).
  { destruct k as [| k].
    - exfalso. apply Hnot. split; [exact Hc |].
      split; [rewrite pow2_0; exact Hf | left; reflexivity].
    - split; [lia |].
      destruct (Z.le_gt_cases (first_size P (size c) realSize * 2 ^ Z.of_nat (S k))
                            (Z.min (vector_max_size P) (ULONG_MAX P)));
        [| lia].
      exfalso. apply Hnot. split; [exact Hc |]. split; [lia | right; lia]. }
  destruct (unzipData_enters_loop fuel c (size c) realSize ltac:(lia) Hreal Hf)
    as (res & Hres & ->).
  rewrite read_n_all, <- Hres in *.
  destruct (enough_fuel_spec fuel (size res) Hfuel Hpos) as (f & -> & Hpow).
  destruct (unzip_loop_terminates c f res Hpos Hpow) as (e & t & Hrun).
  destruct (unzip_loop_valid_stream c d (S f) k res e t Hinf Hpos Hfit Hrun)
    as [_ Hret].
  rewrite Hrun, (Hret Hbig). cbn [bind after_loop ret]. eauto.
Qed.

(** C8: the retry loop of [unzipData] terminates on every input and
    whatever the library answers: with [enough_fuel] the function
    returns, and how it returns is decided as follows.  Either a guard
    in front of the loop refuses the input and [uncompress] is not
    called.  Or the guards are passed, the loop is entered with the
    first size s and [uncompress] is called with the capacities s, 2s,
    ..., s * 2^n for some n: every call before the last reported
    buffer-too-small and was followed by the call with the doubled
    capacity, which is at most [max_size] and representable in
    [uLong]; and the answer of the last call ends the function.  With
    [Z_OK] the result is what [uncompress] stored (when that is no more
    than the buffer holds); with buffer-too-small the doubled capacity
    is beyond [max_size] or not representable in [uLong], the failure
    is logged and the result is empty; with any other code the code is
    logged and the result is empty. *)
Theorem unzipData_retry_loop_terminates
  (fuel : nat) (src : option bytes) (srcSize realSize : Z) :
  0 <= srcSize -> 0 <= realSize ->
  (enough_fuel P <= fuel)%nat ->
  exists (r : bytes) (t : Trace),
    unzipData P zlib fuel src srcSize realSize = Some (r, t)
    /\ ((r = [] /\ uncompress_caps t = []
         /\ (src = None \/ srcSize = 0 \/ ULONG_MAX P < srcSize
             \/ ULONG_MAX P < first_size P srcSize realSize))
        \/ exists (mem : bytes) (n : nat),
             let s := first_size P srcSize realSize in
             let source := read_n mem srcSize in
             let code := fst (uncompress zlib (s * 2 ^ Z.of_nat n) source) in
             let out := snd (uncompress zlib (s * 2 ^ Z.of_nat n) source) in
             src = Some mem
             /\ 0 < srcSize <= ULONG_MAX P
             /\ s <= ULONG_MAX P
             /\ (forall j : nat, (j < n)%nat ->
                   fst (uncompress zlib (s * 2 ^ Z.of_nat j) source) = Z_BUF_ERROR
                   /\ s * 2 ^ Z.of_nat (S j)
                      <= Z.min (vector_max_size P) (ULONG_MAX P))
             /\ ((code = Z_OK
                  /\ t = retries source s n
                  /\ (size out <= Z.min (s * 2 ^ Z.of_nat n) (SIZE_MAX P) ->
                      r = out))
                 \/ (code = Z_BUF_ERROR
                     /\ Z.min (vector_max_size P) (ULONG_MAX P)
                        < 2 * (s * 2 ^ Z.of_nat n)
                     /\ r = []
                     /\ t = retries source s n
                            ++ [ErrorLog
                                  "The size of the decompressed data is too large"])
                 \/ (code <> Z_OK /\ code <> Z_BUF_ERROR
                     /\ r = []
                     /\ t = retries source s n
                            ++ [ErrorLogCode "zlib error: " code]))).
Proof.
  intros Hsrc Hreal Hfuel.
  destruct src as [mem |];
    [| exists [], []; split; [reflexivity |]; left; auto].
  destruct (Z.eq_dec srcSize 0) as [-> | Hnz].
  { exists [], []. split; [reflexivity |]. left. auto. }
  destruct (Z.le_gt_cases srcSize (ULONG_MAX P)) as [HsU | HsU];
    [| destruct (unzipData_refused fuel mem srcSize realSize ltac:(lia) Hreal
                   ltac:(left; lia)) as (t & Hcaps & Hrun);
       exists [], t; split; [exact Hrun |]; left; auto 6].
  destruct (Z.le_gt_cases (first_size P srcSize realSize) (ULONG_MAX P)) as [HfU | HfU];
    [| destruct (unzipData_refused fuel mem srcSize realSize ltac:(lia) Hreal
                   ltac:(right; lia)) as (t & Hcaps & Hrun);
       exists [], t; split; [exact Hrun |]; left; auto 6].
  pose proof (first_size_pos srcSize realSize ltac:(lia) Hreal) as Hpos.
  destruct (unzipData_enters_loop fuel mem srcSize realSize ltac:(lia) Hreal HfU)
    as (res & Hres & ->).
  rewrite <- Hres in *.
  destruct (enough_fuel_spec fuel (size res) Hfuel Hpos) as (f & -> & Hf).
  destruct (unzip_loop_terminates (read_n mem srcSize) f res Hpos Hf)
    as (e & t & Hrun).
  destruct (unzip_loop_run _ _ _ _ _ Hpos Hrun) as (n & Hbefore & Hexit).
  rewrite Hrun. cbn [bind].
  destruct e as [v | ret_ res' dst'].
  - destruct Hexit as (-> & -> & Hlast & Hbig).
    cbn [after_loop ret]. eexists [], _. split; [reflexivity |].
    right. exists mem, n. cbv zeta.
    split; [reflexivity |]. split; [lia |]. split; [exact HfU |].
    split; [exact Hbefore |].
    right. left. rewrite app_nil_r. rewrite pow2_succ in Hbig.
    repeat split; auto. lia.
  - destruct Hexit as (-> & Hnb & Hlast & -> & buf & Hbuf & ->).
    cbn [after_loop].
    destruct (Z.eqb_spec ret_ Z_OK) as [-> | Hne]; cbn [negb ret].
    + eexists _, _. split; [reflexivity |].
      right. exists mem, n. cbv zeta.
      split; [reflexivity |]. split; [lia |]. split; [exact HfU |].
      split; [exact Hbefore |].
      left. rewrite app_nil_r.
      split; [exact Hlast |]. split; [reflexivity |].
      intros Hout.
      pose proof (size_nonneg (snd (uncompress zlib (size res * 2 ^ Z.of_nat n)
                                              (read_n mem srcSize)))).
      rewrite to_size_t_id by lia.
      apply resize_store. lia.
    + eexists [], _. split; [reflexivity |].
      right. exists mem, n. cbv zeta.
      split; [reflexivity |]. split; [lia |]. split; [exact HfU |].
      split; [exact Hbefore |].
      right. right. rewrite Hlast. auto.
Qed.

(** ** zipData *)

Lemma call_compressBound_run (n : Z) :
  call_compressBound zlib n = Some (compressBound zlib n, [CallCompressBound n]).
Proof. reflexivity. Qed.

Lemma call_compress_run (destLen : Z) (source : bytes) :
  call_compress zlib destLen source
  = Some (compress zlib destLen source, [CallCompress destLen source]).
Proof. reflexivity. Qed.

(** [zipData] past its guards: one call of [compressBound], one call of
    [compress] with that capacity, and the stored bytes as result. *)
Lemma zipData_deflates (B c : bytes) :
  B <> [] ->
  size B <= ULONG_MAX P ->
  compressBound zlib (size B) <= Z.min (SIZE_MAX P) (ULONG_MAX P) ->
  deflates zlib B c ->
  zipData P zlib (Some B) (size B)
  = Some (c, [CallCompressBound (size B);
              CallCompress (compressBound zlib (size B)) B]).
Proof.
  intros HB Hsize Hbound [Hrun Hc].
  assert (0 < size B).
  { pose proof (size_nonneg B). destruct (Z.eq_dec (size B) 0) as [E |]; [| lia].
    apply size_zero_nil in E. contradiction. }
  unfold zipData. cbv zeta.
  destruct (Z.eqb_spec (size B) 0); [lia |].
  rewrite (to_uLong_id P (size B)) by lia. rewrite Z.eqb_refl. cbn [negb].
  rewrite call_compressBound_run. cbn [bind].
  rewrite to_size_t_id by lia. rewrite size_vector_n by lia.
  rewrite to_uLong_id by lia. rewrite Z.eqb_refl. cbn [negb].
  rewrite read_n_all, call_compress_run. cbn [bind]. rewrite Hrun.
  rewrite Z.eqb_refl. cbn [negb ret app].
  rewrite (to_size_t_id P (size c)) by lia.
  rewrite resize_store; [reflexivity |].
  rewrite size_vector_n; lia.
Qed.

(** A source whose length does not survive the conversion to [uLong] is
    refused before the library is called. *)
Lemma zipData_too_large (mem : bytes) (srcSize : Z) :
  srcSize <> 0 -> to_uLong P srcSize <> srcSize ->
  zipData P zlib (Some mem) srcSize
  = Some ([], [ErrorLog "The size of the source data is too large"]).
Proof.
  intros Hnz Hbig. unfold zipData. cbv zeta.
  destruct (Z.eqb_spec srcSize 0); [contradiction |].
  destruct (Z.eqb_spec (to_uLong P srcSize) srcSize); [contradiction |].
  reflexivity.
Qed.

(** ** Round trip *)

Lemma nonempty_size_pos {A : Type} (v : list A) : v <> [] -> 0 < size v.
Proof.
  intros Hv. pose proof (size_nonneg v).
  destruct (Z.eq_dec (size v) 0) as [E |]; [| lia].
  apply size_zero_nil in E. contradiction.
Qed.

(** C1, amended: let [B] be a non-empty buffer that the library
    compresses to [c] within [compressBound], that bound being
    representable in [size_t] and [uLong], and let [c] be a valid
    stream with content [B].  Let s be the first buffer size guessed
    for [c] (7 times its length, or its length when 7 times it exceeds
    [max_size]) and let [s * 2^k] be the first of the sizes s, 2s, 4s,
    ... that holds [B].  Then decompressing the result of compressing
    [B], with no size hint, yields exactly [B] when the length of [B]
    and the size [s * 2^k] are representable in [uLong] and that size,
    if it is not the first one, is at most [max_size]; in every other
    case it yields the empty vector. *)
Theorem unzipData_zipData_round_trip (fuel : nat) (B c : bytes) :
  B <> [] ->
  deflates zlib B c ->
  inflates zlib c B ->
  compressBound zlib (size B) <= Z.min (SIZE_MAX P) (ULONG_MAX P) ->
  (enough_fuel P <= fuel)%nat ->
  exists k : nat,
    first_fit (initial_guess P (size c)) (size B) k
    /\ (size B <= ULONG_MAX P /\ can_grow P (initial_guess P (size c)) k ->
        value (zip <- zipData P zlib (Some B) (size B) ;;
               unzipData P zlib fuel (Some zip) (size zip) 0) = Some B)
    /\ (~ (size B <= ULONG_MAX P /\ can_grow P (initial_guess P (size c)) k) ->
        value (zip <- zipData P zlib (Some B) (size B) ;;
               unzipData P zlib fuel (Some zip) (size zip) 0) = Some []).
Proof.
  intros HB Hdef Hinf Hbound Hfuel.
  pose proof (nonempty_size_pos B HB) as HBpos.
  pose proof (max_size_fits P P_ok) as Hfit.
  assert (Hc : 0 < size c <= Z.min (SIZE_MAX P) (ULONG_MAX P))
    by (destruct Hdef; lia).
  assert (Hcne : c <> []) by (intros ->; cbn in Hc; lia).
  assert (Hfirst : first_size P (size c) 0 = initial_guess P (size c))
    by reflexivity.
  pose proof (first_size_pos (size c) 0 ltac:(lia) ltac:(lia)) as Hpos.
  rewrite Hfirst in Hpos.
  destruct (first_fit_exists (initial_guess P (size c)) (size B) Hpos)
    as (k & Hk).
  exists k. split; [exact Hk |]. split.
  - intros [HBU Hgrow].
    rewrite (zipData_deflates B c HB HBU Hbound Hdef). cbn [bind].
    rewrite (unzipData_valid_stream_ok fuel c B 0 k Hinf); auto; try lia.
    destruct Hgrow as [_ [-> | Hmax]]; [| destruct Hk; lia].
    destruct Hk as [Hk _]. rewrite pow2_0 in Hk.
    pose proof (initial_guess_fits (size c) ltac:(lia)). lia.
  - intros Hnot.
    destruct (Z.le_gt_cases (size B) (ULONG_MAX P)) as [HBU | HBU].
    + rewrite (zipData_deflates B c HB HBU Hbound Hdef). cbn [bind].
      destruct (unzipData_valid_stream_fails fuel c B 0 k Hinf Hcne ltac:(lia))
        as (t & ->); auto.
      intros [_ Hgrow]. apply Hnot. auto.
    + rewrite (zipData_too_large B (size B)) by
        (try apply to_uLong_of_large; lia).
      reflexivity.
Qed.

(** C3, amended: let [c] be a valid compressed stream whose content [d]
    is longer than 7 times the length of [c], let s be the first buffer
    size guessed for [c] and let [s * 2^k] be the first of the sizes s,
    2s, 4s, ... that holds [d]; there is at least one doubling (k > 0).
    If [s * 2^k] is at most [max_size] and [ULONG_MAX], [unzipData]
    without size hint returns exactly [d], and its calls of
    [uncompress] are, in order, those with the capacities s, 2s, ...,
    s * 2^k: every capacity before the last is too small for [d] and
    the last one holds it.  If [s * 2^k] is beyond [max_size] or
    [ULONG_MAX], it returns the empty vector.  The first guess s is 7
    times the source length when that is at most [max_size], and the
    source length itself otherwise. *)
Theorem unzipData_grows_beyond_first_guess (fuel : nat) (c d : bytes) :
  inflates zlib c d ->
  c <> [] ->
  7 * size c < size d ->
  (enough_fuel P <= fuel)%nat ->
  (exists k : nat,
     (0 < k)%nat
     /\ first_fit (initial_guess P (size c)) (size d) k
     /\ (initial_guess P (size c) * 2 ^ Z.of_nat k
         <= Z.min (vector_max_size P) (ULONG_MAX P) ->
         unzipData P zlib fuel (Some c) (size c) 0
         = Some (d, retries c (initial_guess P (size c)) k))
     /\ (Z.min (vector_max_size P) (ULONG_MAX P)
         < initial_guess P (size c) * 2 ^ Z.of_nat k ->
         exists t : Trace,
           unzipData P zlib fuel (Some c) (size c) 0 = Some ([], t)))
  /\ (forall srcSize : Z, 0 < srcSize ->
        (7 * srcSize <= vector_max_size P -> initial_guess P srcSize = 7 * srcSize)
        /\ (vector_max_size P < 7 * srcSize -> initial_guess P srcSize = srcSize)).
Proof.
  intros Hinf Hc Hlong Hfuel. split.
  - pose proof (nonempty_size_pos c Hc) as Hcpos.
    pose proof (max_size_fits P P_ok) as Hfit.
    assert (Hfirst : first_size P (size c) 0 = initial_guess P (size c))
      by reflexivity.
    pose proof (first_size_pos (size c) 0 Hcpos ltac:(lia)) as Hpos.
    rewrite Hfirst in Hpos.
    assert (Hguess : size c <= initial_guess P (size c) <= 7 * size c)
      by (destruct (initial_guess_cases (size c) Hcpos) as [[_ ->] | [_ ->]]; lia).
    destruct (first_fit_exists (initial_guess P (size c)) (size d) Hpos)
      as (k & Hk).
    assert (Hkpos : (0 < k)%nat).
    { destruct k; [| lia]. destruct Hk as [Hk _]. rewrite pow2_0 in Hk. lia. }
    pose proof (pow2_mono _ 0 k Hpos ltac:(lia)) as Hmono. rewrite pow2_0 in Hmono.
    exists k. split; [exact Hkpos |]. split; [exact Hk |]. split.
    + intros Hok.
      apply (unzipData_valid_stream_ok fuel c d 0 k Hinf); auto; try lia.
      * rewrite Hfirst. split; [lia | right; lia].
      * destruct Hk as [Hk _]. lia.
    + intros Hbig.
      apply (unzipData_valid_stream_fails fuel c d 0 k Hinf Hc); auto; try lia.
      rewrite Hfirst. intros [_ [HU [-> | Hmax]]]; lia.
  - intros srcSize Hs.
    destruct (initial_guess_cases srcSize Hs) as [[H1 E] | [H1 E]]; split; intros; lia.
Qed.

(** The first buffer is too small and its double is not representable
    in [uLong]: [unzipData] gives up after one call. *)
Lemma unzipData_overshoots (fuel : nat) (mem : bytes) (srcSize realSize : Z) :
  0 < srcSize <= ULONG_MAX P ->
  0 <= realSize ->
  first_size P srcSize realSize <= Z.min (ULONG_MAX P) (vector_max_size P / 2) ->
  fst (uncompress zlib (first_size P srcSize realSize) (read_n mem srcSize))
  = Z_BUF_ERROR ->
  to_uLong P (2 * first_size P srcSize realSize) <> 2 * first_size P srcSize realSize ->
  unzipData P zlib (S fuel) (Some mem) srcSize realSize
  = Some ([], [CallUncompress (first_size P srcSize realSize) (read_n mem srcSize);
               ErrorLog "The size of the decompressed data is too large"]).
Proof.
  intros Hsrc Hreal Hfirst Hbuf Hwrap.
  pose proof (first_size_pos srcSize realSize ltac:(lia) Hreal) as Hpos.
  pose proof (max_size_fits P P_ok) as Hfit.
  destruct (unzipData_enters_loop (S fuel) mem srcSize realSize Hsrc Hreal
              ltac:(lia)) as (res & Hres & ->).
  rewrite <- Hres in *.
  rewrite unzip_loop_step. cbv zeta. rewrite Hbuf, Z.eqb_refl, size_store.
  destruct (Z.ltb_spec (vector_max_size P / 2) (size res)); [lia |].
  assert (2 * size res <= vector_max_size P) by (apply half_max_size; lia).
  rewrite (Z.mul_comm (size res) 2).
  rewrite to_size_t_id by lia. rewrite size_resize by lia.
  destruct (Z.eqb_spec (to_uLong P (2 * size res)) (2 * size res));
    [contradiction | reflexivity].
Qed.

End Codec.

(** ** Framing: the reader *)

Section Reader.

Context (P : Platform) (zlib : Zlib).
Context {I O : Type} `{IStreamBase I} `{OStreamBase O}.

(** [unzipStream] in terms of the fields it reads. *)
Lemma unzipStream_fields (fuel : nat) (inputStream : I) (outputStream : O) :
  exists s1 s2 : I,
    unzipStream P zlib fuel inputStream outputStream
    = if read_zipSize inputStream =? 0 then ret (false, s1, outputStream)
      else if negb (read_version inputStream =? FORMAT_VERSION_0)
           then ret (false, s2, outputStream)
           else
             raw <- unzipData P zlib fuel (Some (read_zip inputStream))
                                (size (read_zip inputStream))
                                (read_rawSize inputStream) ;;
             if negb (size raw =? read_rawSize inputStream)
             then ret (false, read_rest inputStream, outputStream)
             else ret (negb (fail (putRaw raw outputStream)),
                       read_rest inputStream, putRaw raw outputStream).
Proof.
  unfold unzipStream, read_rest, read_zip, read_version, read_zipSize, read_rawSize.
  destruct (get32 inputStream) as [rawSize i1]. cbn [fst snd].
  destruct (get32 i1) as [zipSize i2]. cbn [fst snd].
  destruct (get16 i2) as [version i3]. cbn [fst snd].
  destruct (getRaw zipSize (skip 2 i3)) as [zip i4]. cbn [fst snd].
  exists i2, i3. reflexivity.
Qed.

(** C4: [unzipStream] returns [false], and leaves the output stream as
    it was, whenever the compressed-size field read from the input is
    0, whenever the format-version field read is not 0, and whenever
    the vector that [unzipData] returns for the payload has a length
    different from the raw-size field. *)
Theorem unzipStream_rejects (fuel : nat) (inputStream : I) (outputStream : O) :
  read_zipSize inputStream = 0
  \/ read_version inputStream <> FORMAT_VERSION_0
  \/ (exists (raw : bytes) (t : Trace),
        unzipData P zlib fuel (Some (read_zip inputStream))
                  (size (read_zip inputStream)) (read_rawSize inputStream)
        = Some (raw, t)
        /\ size raw <> read_rawSize inputStream) ->
  exists (rest : I) (t : Trace),
    unzipStream P zlib fuel inputStream outputStream
    = Some ((false, rest, outputStream), t).
Proof.
  intros Hbad.
  destruct (unzipStream_fields fuel inputStream outputStream)
    as (s1 & s2 & ->).
  destruct (Z.eqb_spec (read_zipSize inputStream) 0) as [| Hzip];
    [unfold ret; eauto |].
  destruct (Z.eqb_spec (read_version inputStream) FORMAT_VERSION_0) as [Hver |];
    cbn [negb]; [| unfold ret; eauto].
  destruct Hbad as [Hz | [Hv | (raw & t & Hrun & Hlen)]]; try contradiction.
  rewrite Hrun. cbn [bind].
  destruct (Z.eqb_spec (size raw) (read_rawSize inputStream)); [contradiction |].
  cbn [negb ret]. eauto.
Qed.

End Reader.

(** ** The memory stream *)

Lemma Z_of_byte_of_Z (x : Z) : Z_of_byte (byte_of_Z x) = x mod 256.
Proof.
  unfold Z_of_byte, byte_of_Z.
  pose proof (Z.mod_pos_bound x 256 ltac:(lia)) as Hm.
  destruct (Byte.of_N (Z.to_N (x mod 256))) as [b |] eqn:E.
  - apply Byte.to_of_N in E. rewrite E. lia.
  - apply Byte.of_N_None_iff in E. lia.
Qed.

Lemma length_le_bytes (n : nat) (v : Z) : length (le_bytes n v) = n.
Proof. revert v. induction n as [| n IH]; intros v; cbn; [| rewrite IH]; reflexivity. Qed.

Lemma le_value_le_bytes (n : nat) (v : Z) :
  le_value (le_bytes n v) = v mod 256 ^ Z.of_nat n.
Proof.
  revert v. induction n as [| n IH]; intros v.
  - cbn. rewrite Z.mod_1_r. reflexivity.
  - cbn [le_bytes le_value]. rewrite Z_of_byte_of_Z, IH.
    rewrite Nat2Z.inj_succ, Z.pow_succ_r by lia.
    rewrite Z.rem_mul_r by lia. reflexivity.
Qed.

Lemma length_encode_int (be : bool) (n : nat) (v : Z) :
  length (encode_int be n v) = n.
Proof.
  unfold encode_int. destruct be; rewrite ?length_rev; apply length_le_bytes.
Qed.

Lemma decode_encode_int (be : bool) (n : nat) (v : Z) :
  0 <= v < 256 ^ Z.of_nat n -> decode_int be (encode_int be n v) = v.
Proof.
  intros Hv. unfold decode_int, encode_int.
  destruct be; rewrite ?rev_involutive, le_value_le_bytes; apply Z.mod_small; exact Hv.
Qed.

Lemma firstn_app_exact {A : Type} (n : nat) (a b : list A) :
  length a = n -> firstn n (a ++ b) = a.
Proof.
  intros <-. rewrite firstn_app, firstn_all, Nat.sub_diag. apply app_nil_r.
Qed.

Lemma skipn_app_exact {A : Type} (n : nat) (a b : list A) :
  length a = n -> skipn n (a ++ b) = b.
Proof.
  intros <-. rewrite skipn_app, skipn_all, Nat.sub_diag. reflexivity.
Qed.

(** Reading an integer that was written gives it back and leaves the
    bytes that follow. *)
Lemma sb_get_encoded (be f : bool) (n : nat) (v : Z) (rest : bytes) :
  0 <= v < 256 ^ Z.of_nat n ->
  sb_get n (mkStreamBuf (encode_int be n v ++ rest) f be)
  = (v, mkStreamBuf rest f be).
Proof.
  intros Hv. unfold sb_get. cbn [content failed bigendian].
  pose proof (length_encode_int be n v) as Hlen.
  destruct (Nat.ltb_spec (length (encode_int be n v ++ rest)) n) as [Hshort |].
  { rewrite length_app in Hshort. lia. }
  rewrite firstn_app_exact, skipn_app_exact by exact Hlen.
  rewrite decode_encode_int by exact Hv. reflexivity.
Qed.

(** The bytes of a framed block in a memory stream: 12 bytes of header,
    then the payload. *)
Lemma framed_StreamBuf (srcSize : Z) (zip : bytes) (s : StreamBuf) :
  framed srcSize zip s
  = mkStreamBuf
      (content s
       ++ encode_int (bigendian s) 4 (to_uint32 srcSize)
       ++ encode_int (bigendian s) 4 (to_uint32 (size zip))
       ++ encode_int (bigendian s) 2 FORMAT_VERSION_0
       ++ encode_int (bigendian s) 2 0
       ++ zip)
      (failed s) (bigendian s).
Proof.
  unfold framed. cbn. unfold sb_putRaw, sb_put. cbn [content failed bigendian].
  rewrite <- !app_assoc. reflexivity.
Qed.

Lemma resize_all (v : bytes) : resize (size v) v = v.
Proof.
  unfold resize, size. rewrite Nat2Z.id, firstn_all, Nat.sub_diag. apply app_nil_r.
Qed.

(** What [unzipStream] reads off a memory stream that starts with a
    framed block. *)
Lemma read_framed (be f : bool) (rawSize : Z) (zip rest : bytes) :
  0 <= rawSize <= UINT32_MAX -> size zip <= UINT32_MAX ->
  let s := mkStreamBuf
             (encode_int be 4 rawSize
              ++ encode_int be 4 (size zip)
              ++ encode_int be 2 FORMAT_VERSION_0
              ++ encode_int be 2 0
              ++ zip ++ rest) f be in
  read_rawSize s = rawSize /\ read_zipSize s = size zip
  /\ read_version s = FORMAT_VERSION_0 /\ read_zip s = zip
  /\ read_rest s = mkStreamBuf rest f be.
Proof.
  intros Hraw Hzip s. subst s.
  pose proof (size_nonneg zip) as Hz.
  unfold read_rest, read_zip, read_version, read_zipSize, read_rawSize.
  cbn [get32 get16 skip getRaw StreamBuf_IStreamBase].
  assert (H32 : 256 ^ Z.of_nat 4 = UINT32_MAX + 1) by reflexivity.
  assert (H16 : 0 <= FORMAT_VERSION_0 < 256 ^ Z.of_nat 2) by (split; reflexivity).
  rewrite sb_get_encoded by lia.
  cbn [fst snd].
  rewrite sb_get_encoded by lia.
  cbn [fst snd].
  rewrite sb_get_encoded by exact H16.
  cbn [fst snd].
  assert (Hskip2 : sb_skip 2 (mkStreamBuf (encode_int be 2 0 ++ zip ++ rest) f be)
                   = mkStreamBuf (zip ++ rest) f be).
  { unfold sb_skip. cbn [content failed bigendian].
    destruct (Z.ltb_spec (size (encode_int be 2 0 ++ zip ++ rest)) 2) as [Hshort |].
    { rewrite size_app in Hshort. unfold size in Hshort at 1.
      rewrite length_encode_int in Hshort.
      pose proof (size_nonneg (zip ++ rest)). lia. }
    rewrite skipn_app_exact by apply length_encode_int. reflexivity. }
  rewrite Hskip2. unfold sb_getRaw. cbn [content failed bigendian fst snd].
  repeat split.
  - unfold resize, size. rewrite Nat2Z.id, firstn_app_exact by reflexivity.
    rewrite length_app.
    replace (length zip - (length zip + length rest))%nat with 0%nat by lia.
    apply app_nil_r.
  - unfold size at 1. rewrite Nat2Z.id, skipn_app_exact by reflexivity.
    destruct (Z.ltb_spec (size (zip ++ rest)) (size zip)) as [Hshort |].
    { rewrite size_app in Hshort. pose proof (size_nonneg rest). lia. }
    rewrite orb_false_r. reflexivity.
Qed.

(** ** Framing round trip *)

Section FramedRoundTrip.

Variable P : Platform.
Variable zlib : Zlib.
Hypothesis P_ok : PlatformOk P.
Context {O : Type} `{OStreamBase O}.

(** C2, amended: let [B] be a non-empty buffer that the library
    compresses to [c] within [compressBound] and decompresses back from
    [c] into a destination of the length of [B], with [compressBound]
    of that length representable in [size_t] and [uLong], and with both
    the length of [B] and the length of [c] representable in 32 bits.
    Then [zipStreamBuf] on [B] and a fresh memory stream returns
    [true]; and [unzipStream] on the stream so written and any output
    stream consumes the whole block, puts exactly [B] to the output
    stream, and returns [true] unless the output stream reports a fault
    after that write. *)
Theorem zipStreamBuf_unzipStream_round_trip
  (fuel : nat) (be : bool) (B c : bytes) (out : O) :
  B <> [] ->
  deflates zlib B c ->
  uncompress zlib (size B) c = (Z_OK, B) ->
  compressBound zlib (size B) <= Z.min (SIZE_MAX P) (ULONG_MAX P) ->
  size B <= UINT32_MAX ->
  size c <= UINT32_MAX ->
  (enough_fuel P <= fuel)%nat ->
  exists (written : StreamBuf) (t1 : Trace),
    zipStreamBuf P zlib (stream_of B) (fresh_stream be) = Some ((true, written), t1)
    /\ exists (t2 : Trace),
         unzipStream P zlib fuel written out
         = Some ((negb (fail (putRaw B out)), mkStreamBuf [] false be,
                  putRaw B out), t2).
Proof.
  intros HB Hdef Hinf Hbound HB32 Hc32 Hfuel.
  pose proof (ulong_holds_uint32 P P_ok) as HU.
  pose proof (size_holds_uint32 P P_ok) as HS.
  pose proof (nonempty_size_pos B HB) as HBpos.
  assert (Hcpos : 0 < size c) by (destruct Hdef; lia).
  assert (Hc : c <> []) by (intros ->; cbn in Hcpos; lia).
  pose proof (zipData_deflates P zlib B c HB ltac:(lia) Hbound Hdef) as Hzip.
  eexists _, _. split.
  - rewrite (zipStreamBuf_frames P zlib (stream_of B) (fresh_stream be) c _ Hzip Hc).
    rewrite framed_StreamBuf. cbn [fresh_stream content failed bigendian negb fail
                                   StreamBuf_OStreamBase app stream_of buf_size].
    reflexivity.
  - rewrite !to_uint32_id by lia.
    set (s := mkStreamBuf _ _ _).
    destruct (unzipStream_fields P zlib fuel s out) as (s1 & s2 & Hrun).
    destruct (read_framed be false (size B) c [] ltac:(lia) Hc32)
      as (Hraw & Hzs & Hver & Hpay & Hrest).
    rewrite app_nil_r in Hraw, Hzs, Hver, Hpay, Hrest.
    fold s in Hraw, Hzs, Hver, Hpay, Hrest.
    rewrite Hraw, Hzs, Hver, Hpay, Hrest in Hrun.
    destruct (Z.eqb_spec (size c) 0) as [| _]; [lia |].
    rewrite Z.eqb_refl in Hrun. cbn [negb] in Hrun.
    assert (Hfirst : first_size P (size c) (size B) = size B).
    { unfold first_size. destruct (Z.eqb_spec (size B) 0); [lia | reflexivity]. }
    destruct fuel as [| f]; [unfold enough_fuel in Hfuel; lia |].
    rewrite (unzipData_one_call P zlib P_ok f c B (size B)) in Hrun;
      rewrite ?Hfirst; auto; try lia.
    cbn [bind] in Hrun.
    rewrite Z.eqb_refl in Hrun. cbn [negb ret] in Hrun.
    eexists. exact Hrun.
Qed.

End FramedRoundTrip.

(** ** Image reconstruction *)

Section Images.

Variable P : Platform.
Variable zlib : Zlib.

(** The four entry checks. *)
Lemma CreateImageFromZlib_refuses (fuel : nat) (width height : Z)
  (imageData : option bytes) (imageSize : Z) (doubleLayer : bool) :
  imageData = None \/ imageSize = 0 \/ width <= 0 \/ height <= 0 ->
  CreateImageFromZlib P zlib fuel width height imageData imageSize doubleLayer
  = Some (Image_default, []).
Proof.
  intros Hbad. unfold CreateImageFromZlib.
  replace (is_nullptr imageData || (imageSize =? 0) || (width <=? 0) || (height <=? 0))
    with true; [reflexivity |].
  symmetry. rewrite !orb_true_iff, Z.eqb_eq, !Z.leb_le.
  destruct Hbad as [-> | [-> | [Hw | Hh]]]; cbn; auto.
Qed.

(** Past the entry checks the result is decided by the decompressed
    bytes alone. *)
Lemma CreateImageFromZlib_decides (fuel : nat) (width height : Z)
  (mem : bytes) (imageSize : Z) (doubleLayer : bool) (d : bytes) (t : Trace) :
  imageSize <> 0 -> 0 < width -> 0 < height ->
  unzipData P zlib fuel (Some mem) imageSize 0 = Some (d, t) ->
  CreateImageFromZlib P zlib fuel width height (Some mem) imageSize doubleLayer
  = Some (image_of P width height doubleLayer d, t).
Proof.
  intros Hsize Hw Hh Hrun. unfold CreateImageFromZlib.
  cbn [is_nullptr orb].
  destruct (Z.eqb_spec imageSize 0); [contradiction |].
  destruct (Z.leb_spec width 0); [lia |].
  destruct (Z.leb_spec height 0); [lia |].
  cbn [orb]. rewrite Hrun. cbn [bind].
  unfold image_of, area, plane_size, built_image. cbv zeta.
  destruct (doubleLayer && (Z.land (size d) 1 =? 1));
    [cbn [ret]; rewrite app_nil_r; reflexivity |].
  destruct (negb _); cbn [ret]; rewrite app_nil_r; reflexivity.
Qed.

Lemma land_1_odd (n : Z) : (Z.land n 1 =? 1) = Z.odd n.
Proof.
  change 1 with (Z.ones 1) at 1. rewrite Z.land_ones by lia.
  change (2 ^ 1) with 2. rewrite Zmod_odd. destruct (Z.odd n); reflexivity.
Qed.

(** An odd length under [doubleLayer], or an area (as the code computes
    it) different from the plane size, gives the default image. *)
Lemma image_of_default (width height : Z) (doubleLayer : bool) (d : bytes) :
  (doubleLayer = true /\ Z.odd (size d) = true)
  \/ area P width height <> plane_size doubleLayer d ->
  image_of P width height doubleLayer d = Image_default.
Proof.
  intros Hbad. unfold image_of. rewrite land_1_odd.
  destruct Hbad as [[-> ->] | Harea]; [reflexivity |].
  destruct (doubleLayer && Z.odd (size d)); [reflexivity |].
  destruct (Z.eqb_spec (area P width height) (plane_size doubleLayer d));
    [contradiction | reflexivity].
Qed.

(** The dimensions of a built image are the requested ones. *)
Lemma built_image_dimensions (w h : Z) (doubleLayer : bool) (d : bytes) :
  width (built_image w h doubleLayer d) = w
  /\ height (built_image w h doubleLayer d) = h.
Proof. destruct doubleLayer; split; reflexivity. Qed.

(** The planes of a built image whose area is the plane size. *)
Lemma built_image_planes (width height : Z) (doubleLayer : bool) (d : bytes) :
  0 <= width * height ->
  width * height = plane_size doubleLayer d ->
  (doubleLayer = true -> size d = 2 * (width * height)) ->
  built_image width height doubleLayer d
  = mkImage width height
            (firstn (Z.to_nat (width * height)) d)
            (if doubleLayer then skipn (Z.to_nat (width * height)) d else [])
            (negb doubleLayer).
Proof.
  intros Hpos Harea Hdouble. unfold built_image. cbv zeta. rewrite <- Harea.
  assert (Hzeros : forall tl : bytes,
             skipn (Z.to_nat (width * height)) (vector_n (width * height) ++ tl) = tl).
  { intros tl. apply skipn_app_exact. unfold vector_n. apply repeat_length. }
  pose proof (Hzeros []) as Hzeros0. rewrite app_nil_r in Hzeros0.
  destruct doubleLayer;
    unfold set_transform, set_image, Image_resize, _disableTransformLayer,
      Image_default, memcpy;
    cbn [negb image transform singleLayer];
    rewrite Hzeros0, ?app_nil_r.
  - rewrite (firstn_all2 (skipn (Z.to_nat (width * height)) d));
      [reflexivity |].
    rewrite length_skipn.
    specialize (Hdouble eq_refl). unfold size in Hdouble. lia.
  - reflexivity.
Qed.

Hypothesis P_ok : PlatformOk P.

(** Every way of failing a check of [CreateImageFromZlib] gives the
    default image: a null or empty input, a non-positive dimension, an
    odd decompressed length under [doubleLayer], or an area, as the
    code computes it in [size_t], that differs from the plane size. *)
Lemma CreateImageFromZlib_rejects (fuel : nat) (width height : Z)
  (imageData : option bytes) (imageSize : Z) (doubleLayer : bool) :
  (imageData = None \/ imageSize = 0 \/ width <= 0 \/ height <= 0)
  \/ (exists (mem d : bytes) (t : Trace),
        imageData = Some mem
        /\ unzipData P zlib fuel (Some mem) imageSize 0 = Some (d, t)
        /\ ((doubleLayer = true /\ Z.odd (size d) = true)
            \/ area P width height <> plane_size doubleLayer d)) ->
  exists t : Trace,
    CreateImageFromZlib P zlib fuel width height imageData imageSize doubleLayer
    = Some (Image_default, t).
Proof.
  intros [Hentry | (mem & d & t & -> & Hrun & Hbad)].
  - rewrite CreateImageFromZlib_refuses by exact Hentry. eauto.
  - destruct (Z.eq_dec imageSize 0) as [Hz | Hnz];
      [rewrite CreateImageFromZlib_refuses by auto; eauto |].
    destruct (Z_le_gt_dec width 0) as [Hw | Hw];
      [rewrite CreateImageFromZlib_refuses by auto; eauto |].
    destruct (Z_le_gt_dec height 0) as [Hh | Hh];
      [rewrite CreateImageFromZlib_refuses by auto; eauto |].
    rewrite (CreateImageFromZlib_decides fuel width height mem imageSize
               doubleLayer d t) by (auto; lia).
    rewrite image_of_default by exact Hbad. eauto.
Qed.

(** On a platform whose [size_t] holds the product of any two [int32_t]
    values, the area the code computes is the product. *)
Lemma area_exact (width height : Z) :
  0 < width <= INT32_MAX -> 0 < height <= INT32_MAX ->
  INT32_MAX * INT32_MAX <= SIZE_MAX P ->
  area P width height = width * height.
Proof.
  intros Hw Hh Hwide. unfold area.
  assert (width * height <= INT32_MAX * INT32_MAX) by nia.
  unfold INT32_MAX in *.
  rewrite (to_size_t_id P width), (to_size_t_id P height) by nia.
  apply to_size_t_id. nia.
Qed.

(** C5, amended: let [width] and [height] be positive and let [D] be a
    buffer (of a length that [size_t] holds) with [width * height]
    bytes (single layer), or of even length with [width * height] half
    of it (double layer), that the library compresses to [c] within
    [compressBound], that bound being representable in [size_t] and
    [uLong], [c] being a valid stream with content [D].  Let s be the
    first buffer size guessed for [c] and [s * 2^k] the first of s, 2s,
    4s, ... that holds [D].  When the length of [D] and the size
    [s * 2^k] are representable in [uLong] and that size, if it is not
    the first one, is at most [max_size], [CreateImageFromZlib] on the
    compressed bytes returns the image with the given width and height
    whose colour-index plane is the first [width * height] bytes of
    [D]; with [doubleLayer] its transform plane is the rest of [D];
    without it the image is a single-layer image and has no transform
    plane.  In every other case it returns the default image. *)
Theorem CreateImageFromZlib_decodes_planes
  (fuel : nat) (w h : Z) (doubleLayer : bool) (D c : bytes) :
  0 < w -> 0 < h ->
  w * h = plane_size doubleLayer D ->
  (doubleLayer = true -> Z.even (size D) = true) ->
  size D <= SIZE_MAX P ->
  deflates zlib D c ->
  inflates zlib c D ->
  compressBound zlib (size D) <= Z.min (SIZE_MAX P) (ULONG_MAX P) ->
  (enough_fuel P <= fuel)%nat ->
  exists k : nat,
    first_fit (initial_guess P (size c)) (size D) k
    /\ (size D <= ULONG_MAX P /\ can_grow P (initial_guess P (size c)) k ->
        value (zip <- zipData P zlib (Some D) (size D) ;;
               CreateImageFromZlib P zlib fuel w h (Some zip) (size zip)
                                   doubleLayer)
        = Some (mkImage w h
                        (firstn (Z.to_nat (w * h)) D)
                        (if doubleLayer then skipn (Z.to_nat (w * h)) D else [])
                        (negb doubleLayer)))
    /\ (~ (size D <= ULONG_MAX P /\ can_grow P (initial_guess P (size c)) k) ->
        value (zip <- zipData P zlib (Some D) (size D) ;;
               CreateImageFromZlib P zlib fuel w h (Some zip) (size zip)
                                   doubleLayer)
        = Some Image_default).
Proof.
  intros Hw Hh Harea Heven HDsize Hdef Hinf Hbound Hfuel.
  pose proof (max_size_fits P P_ok) as Hfit.
  assert (Hwh : 0 < w * h) by nia.
  assert (Hhalf : doubleLayer = true -> size D = 2 * (w * h)).
  { intros ->. specialize (Heven eq_refl). cbn [plane_size] in Harea.
    rewrite Harea. apply Z.even_spec in Heven as [m ->].
    rewrite (Z.mul_comm 2 m), Z.div_mul by lia. lia. }
  assert (Hle : w * h <= size D).
  { destruct doubleLayer; [rewrite Hhalf by reflexivity; lia |].
    cbn [plane_size] in Harea. lia. }
  assert (HD : D <> []) by (intros ->; cbn in Hle; lia).
  assert (Hexact : area P w h = w * h).
  { unfold area. rewrite (to_size_t_id P w), (to_size_t_id P h) by nia.
    apply to_size_t_id. lia. }
  assert (Hc : 0 < size c <= Z.min (SIZE_MAX P) (ULONG_MAX P))
    by (destruct Hdef; lia).
  assert (Hcne : c <> []) by (intros ->; cbn in Hc; lia).
  assert (Hfirst : first_size P (size c) 0 = initial_guess P (size c))
    by reflexivity.
  pose proof (first_size_pos P P_ok (size c) 0 ltac:(lia) ltac:(lia)) as Hpos.
  rewrite Hfirst in Hpos.
  destruct (first_fit_exists (initial_guess P (size c)) (size D) Hpos)
    as (k & Hk).
  exists k. split; [exact Hk |]. split.
  - intros [HDU Hgrow].
    rewrite (zipData_deflates P zlib D c HD HDU Hbound Hdef). cbn [bind].
    rewrite (CreateImageFromZlib_decides fuel w h c (size c) doubleLayer
               D _ ltac:(lia) Hw Hh
               (unzipData_valid_stream_ok P zlib P_ok fuel c D 0 k Hinf
                  ltac:(lia) ltac:(lia) Hk Hgrow HDsize Hfuel)).
    cbn [value option_map fst]. f_equal.
    unfold image_of. rewrite land_1_odd.
    replace (doubleLayer && Z.odd (size D)) with false.
    2:{ destruct doubleLayer; [| reflexivity]. cbn [andb].
        rewrite <- Z.negb_even, Heven; reflexivity. }
    rewrite Hexact, Harea, Z.eqb_refl. cbn [negb]. rewrite <- Harea.
    apply built_image_planes; auto; lia.
  - intros Hnot.
    destruct (Z.le_gt_cases (size D) (ULONG_MAX P)) as [HDU | HDU].
    + rewrite (zipData_deflates P zlib D c HD HDU Hbound Hdef). cbn [bind].
      destruct (unzipData_valid_stream_fails P zlib P_ok fuel c D 0 k
                  Hinf Hcne ltac:(lia) Hk) as (t & Hrun); auto.
      { intros [_ Hgrow]. apply Hnot. auto. }
      rewrite (CreateImageFromZlib_decides fuel w h c (size c) doubleLayer
                 [] t ltac:(lia) Hw Hh Hrun).
      cbn [value option_map fst]. f_equal.
      apply image_of_default. right. rewrite Hexact.
      destruct doubleLayer; cbn; lia.
    + rewrite (zipData_too_large P zlib D (size D)) by
        (try apply (to_uLong_of_large P P_ok); lia).
      cbn [bind]. rewrite CreateImageFromZlib_refuses by (right; left; reflexivity).
      reflexivity.
Qed.

End Images.

(** ** The reference platforms and the reference codec *)

Lemma LP64_ok : PlatformOk LP64.
Proof. constructor; unfold UINT32_MAX; cbn; lia. Qed.

Lemma LLP64_ok : PlatformOk LLP64.
Proof. constructor; unfold UINT32_MAX; cbn; lia. Qed.

Lemma ILP32_ok : PlatformOk ILP32.
Proof. constructor; unfold UINT32_MAX; cbn; lia. Qed.

(** A stream the codec can expand is a valid compressed stream for the
    interface. *)
Lemma Rle_inflates (c d : bytes) :
  Rle.inflate c = Some d -> inflates Rle.zlib c d.
Proof.
  intros E cap Hpos. cbn [uncompress Rle.zlib]. unfold Rle.uncompress. rewrite E.
  split; intros Hcap; destruct (Z.leb_spec (size d) cap); try lia;
    [reflexivity |].
  destruct (Z.eqb_spec cap 0); [lia | reflexivity].
Qed.

(** What the codec produces within the bound is what the interface
    means by compressing. *)
Lemma Rle_deflates (B c : bytes) :
  Rle.deflate B = c -> 0 < size c <= 2 * size B -> deflates Rle.zlib B c.
Proof.
  intros E Hc. unfold deflates. cbn [compress compressBound Rle.zlib].
  unfold Rle.compress, Rle.compressBound. rewrite E.
  destruct (Z.leb_spec (size c) (2 * size B)); [auto | lia].
Qed.

Lemma Rle_inflate_run (n b : byte) (rest : bytes) :
  Rle.inflate (n :: b :: rest)
  = option_map (app (repeat b (Byte.to_nat n))) (Rle.inflate rest).
Proof. reflexivity. Qed.

(** The content of [m] copies of one run. *)
Lemma Rle_inflate_runs (n b : byte) (m : nat) :
  Rle.inflate (concat (repeat [n; b] m)) = Some (repeat b (Byte.to_nat n * m)).
Proof.
  induction m as [| m IH].
  - rewrite Nat.mul_0_r. reflexivity.
  - cbn [repeat concat app]. rewrite Rle_inflate_run, IH. cbn [option_map].
    rewrite <- repeat_app. do 2 f_equal. lia.
Qed.

(** ** The theorems at concrete inputs *)

(** Closed comparisons of integers and of sizes of concrete buffers. *)
Ltac by_computation :=
  vm_compute; repeat split; solve [reflexivity | discriminate | apply le_n].

Lemma round_trip_of_long_run :
  (exists k : nat,
     first_fit (initial_guess LP64 (size long_run_stream)) (size long_run) k
     /\ (size long_run <= ULONG_MAX LP64
         /\ can_grow LP64 (initial_guess LP64 (size long_run_stream)) k ->
         value (zip <- zipData LP64 Rle.zlib (Some long_run) (size long_run) ;;
                unzipData LP64 Rle.zlib (enough_fuel LP64) (Some zip) (size zip) 0)
         = Some long_run)
     /\ (~ (size long_run <= ULONG_MAX LP64
            /\ can_grow LP64 (initial_guess LP64 (size long_run_stream)) k) ->
         value (zip <- zipData LP64 Rle.zlib (Some long_run) (size long_run) ;;
                unzipData LP64 Rle.zlib (enough_fuel LP64) (Some zip) (size zip) 0)
         = Some []))
  /\ first_fit (initial_guess LP64 (size long_run_stream)) (size long_run) 1
  /\ can_grow LP64 (initial_guess LP64 (size long_run_stream)) 1
  /\ (zip <- zipData LP64 Rle.zlib (Some long_run) (size long_run) ;;
      unzipData LP64 Rle.zlib (enough_fuel LP64) (Some zip) (size zip) 0)
     = Some (long_run,
             [CallCompressBound 20; CallCompress 40 long_run;
              CallUncompress 14 long_run_stream;
              CallUncompress 28 long_run_stream]).
Proof.
  split.
  - apply (unzipData_zipData_round_trip LP64 Rle.zlib LP64_ok (enough_fuel LP64)
             long_run long_run_stream).
    + discriminate.
    + apply Rle_deflates; [reflexivity | by_computation].
    + apply Rle_inflates. reflexivity.
    + by_computation.
    + apply le_n.
  - split; [| split; [| reflexivity]].
    + split; [by_computation |].
      intros [| j] Hj; [by_computation | lia].
    + split; [by_computation | right; by_computation].
Defined.

Lemma growth_on_long_run :
  ((exists k : nat,
     (0 < k)%nat
     /\ first_fit (initial_guess LP64 (size long_run_stream)) (size long_run) k
     /\ (initial_guess LP64 (size long_run_stream) * 2 ^ Z.of_nat k
         <= Z.min (vector_max_size LP64) (ULONG_MAX LP64) ->
         unzipData LP64 Rle.zlib (enough_fuel LP64) (Some long_run_stream)
                   (size long_run_stream) 0
         = Some (long_run,
                 retries long_run_stream
                         (initial_guess LP64 (size long_run_stream)) k))
     /\ (Z.min (vector_max_size LP64) (ULONG_MAX LP64)
         < initial_guess LP64 (size long_run_stream) * 2 ^ Z.of_nat k ->
         exists t : Trace,
           unzipData LP64 Rle.zlib (enough_fuel LP64) (Some long_run_stream)
                     (size long_run_stream) 0 = Some ([], t)))
   /\ (forall srcSize : Z, 0 < srcSize ->
         (7 * srcSize <= vector_max_size LP64 -> initial_guess LP64 srcSize = 7 * srcSize)
         /\ (vector_max_size LP64 < 7 * srcSize -> initial_guess LP64 srcSize = srcSize)))
  /\ unzipData LP64 Rle.zlib (enough_fuel LP64) (Some long_run_stream)
               (size long_run_stream) 0
     = Some (long_run, [CallUncompress 14 long_run_stream;
                        CallUncompress 28 long_run_stream]).
Proof.
  split; [| reflexivity].
  apply (unzipData_grows_beyond_first_guess LP64 Rle.zlib LP64_ok (enough_fuel LP64)
           long_run_stream long_run).
  - apply Rle_inflates. reflexivity.
  - discriminate.
  - by_computation.
  - apply le_n.
Defined.

Lemma framed_round_trip_of_sample_buffer :
  (exists (written : StreamBuf) (t1 : Trace),
     zipStreamBuf LP64 Rle.zlib (stream_of sample_buffer) (fresh_stream false)
     = Some ((true, written), t1)
     /\ exists (t2 : Trace),
          unzipStream LP64 Rle.zlib (enough_fuel LP64) written (fresh_stream true)
          = Some ((true, mkStreamBuf [] false false,
                   mkStreamBuf sample_buffer false true), t2))
  /\ (exists (written : StreamBuf) (t1 : Trace),
        zipStreamBuf LP64 Rle.zlib (stream_of sample_buffer) (fresh_stream false)
        = Some ((true, written), t1)
        /\ exists (t2 : Trace),
             unzipStream LP64 Rle.zlib (enough_fuel LP64) written
                         (mkBoundedSink [] 10 false)
             = Some ((false, mkStreamBuf [] false false,
                      mkBoundedSink [] 10 true), t2)).
Proof.
  split.
  - refine (zipStreamBuf_unzipStream_round_trip LP64 Rle.zlib LP64_ok
              (enough_fuel LP64) false sample_buffer sample_stream
              (fresh_stream true) _ _ _ _ _ _ _).
    + discriminate.
    + apply Rle_deflates; [reflexivity | by_computation].
    + reflexivity.
    + by_computation.
    + by_computation.
    + by_computation.
    + apply le_n.
  - refine (zipStreamBuf_unzipStream_round_trip LP64 Rle.zlib LP64_ok
              (enough_fuel LP64) false sample_buffer sample_stream
              (mkBoundedSink [] 10 false) _ _ _ _ _ _ _).
    + discriminate.
    + apply Rle_deflates; [reflexivity | by_computation].
    + reflexivity.
    + by_computation.
    + by_computation.
    + by_computation.
    + apply le_n.
Defined.

Lemma rejection_of_three_blocks :
  (exists (rest : StreamBuf) (t : Trace),
     unzipStream LP64 Rle.zlib (enough_fuel LP64) block_without_payload
                 (fresh_stream false)
     = Some ((false, rest, fresh_stream false), t))
  /\ (exists (rest : StreamBuf) (t : Trace),
        unzipStream LP64 Rle.zlib (enough_fuel LP64) block_of_version_1
                    (fresh_stream false)
        = Some ((false, rest, fresh_stream false), t))
  /\ (exists (rest : StreamBuf) (t : Trace),
        unzipStream LP64 Rle.zlib (enough_fuel LP64) block_of_wrong_size
                    (fresh_stream false)
        = Some ((false, rest, fresh_stream false), t)).
Proof.
  repeat split.
  - apply (unzipStream_rejects LP64 Rle.zlib (enough_fuel LP64)
             block_without_payload (fresh_stream false)).
    left. reflexivity.
  - apply (unzipStream_rejects LP64 Rle.zlib (enough_fuel LP64)
             block_of_version_1 (fresh_stream false)).
    right. left. discriminate.
  - apply (unzipStream_rejects LP64 Rle.zlib (enough_fuel LP64)
             block_of_wrong_size (fresh_stream false)).
    right. right. exists [x07; x07; x07]. eexists. split; [reflexivity | discriminate].
Defined.

Lemma sample_buffer_is_compressed :
  zipData LP64 Rle.zlib (data (stream_of sample_buffer))
          (buf_size (stream_of sample_buffer))
  = Some (sample_stream,
          [CallCompressBound 22; CallCompress 44 sample_buffer]).
Proof. reflexivity. Qed.

Lemma frame_of_sample_buffer :
  (exists ok : bool,
     zipStreamBuf LP64 Rle.zlib (stream_of sample_buffer) (fresh_stream false)
     = Some ((ok, framed (buf_size (stream_of sample_buffer)) sample_stream
                         (fresh_stream false)),
             [CallCompressBound 22; CallCompress 44 sample_buffer])
     /\ (ok = false
         <-> fail (framed (buf_size (stream_of sample_buffer)) sample_stream
                          (fresh_stream false)) = true))
  /\ (exists ok : bool,
        zipStreamBuf LP64 Rle.zlib (stream_of sample_buffer)
                     (mkBoundedSink [] 10 false)
        = Some ((ok, framed (buf_size (stream_of sample_buffer)) sample_stream
                            (mkBoundedSink [] 10 false)),
                [CallCompressBound 22; CallCompress 44 sample_buffer])
        /\ (ok = false
            <-> fail (framed (buf_size (stream_of sample_buffer)) sample_stream
                             (mkBoundedSink [] 10 false)) = true)).
Proof.
  split.
  - apply (zipStreamBuf_writes_header_then_payload LP64 Rle.zlib
             (stream_of sample_buffer) (fresh_stream false) sample_stream).
    + exact sample_buffer_is_compressed.
    + discriminate.
  - apply (zipStreamBuf_writes_header_then_payload LP64 Rle.zlib
             (stream_of sample_buffer) (mkBoundedSink [] 10 false) sample_stream).
    + exact sample_buffer_is_compressed.
    + discriminate.
Defined.

Lemma termination_on_long_run :
  unzipData LP64 Rle.zlib (enough_fuel LP64) (Some long_run_stream) 2 0
  = Some (long_run, [CallUncompress 14 long_run_stream;
                     CallUncompress 28 long_run_stream])
  /\ exists (r : bytes) (t : Trace),
    unzipData LP64 Rle.zlib (enough_fuel LP64) (Some long_run_stream) 2 0
    = Some (r, t)
    /\ ((r = [] /\ uncompress_caps t = []
         /\ (Some long_run_stream = None \/ 2 = 0 \/ ULONG_MAX LP64 < 2
             \/ ULONG_MAX LP64 < first_size LP64 2 0))
        \/ exists (mem : bytes) (n : nat),
             let s := first_size LP64 2 0 in
             let source := read_n mem 2 in
             let code := fst (uncompress Rle.zlib (s * 2 ^ Z.of_nat n) source) in
             let out := snd (uncompress Rle.zlib (s * 2 ^ Z.of_nat n) source) in
             Some long_run_stream = Some mem
             /\ 0 < 2 <= ULONG_MAX LP64
             /\ s <= ULONG_MAX LP64
             /\ (forall j : nat, (j < n)%nat ->
                   fst (uncompress Rle.zlib (s * 2 ^ Z.of_nat j) source) = Z_BUF_ERROR
                   /\ s * 2 ^ Z.of_nat (S j)
                      <= Z.min (vector_max_size LP64) (ULONG_MAX LP64))
             /\ ((code = Z_OK
                  /\ t = retries source s n
                  /\ (size out <= Z.min (s * 2 ^ Z.of_nat n) (SIZE_MAX LP64) ->
                      r = out))
                 \/ (code = Z_BUF_ERROR
                     /\ Z.min (vector_max_size LP64) (ULONG_MAX LP64)
                        < 2 * (s * 2 ^ Z.of_nat n)
                     /\ r = []
                     /\ t = retries source s n
                            ++ [ErrorLog
                                  "The size of the decompressed data is too large"])
                 \/ (code <> Z_OK /\ code <> Z_BUF_ERROR
                     /\ r = []
                     /\ t = retries source s n
                            ++ [ErrorLogCode "zlib error: " code]))).
Proof.
  split; [reflexivity |].
  apply (unzipData_retry_loop_terminates LP64 Rle.zlib LP64_ok (enough_fuel LP64)
           (Some long_run_stream) 2 0).
  - lia.
  - lia.
  - apply le_n.
Defined.

Lemma size_four_GiB : size four_GiB = 2 ^ 32.
Proof.
  unfold four_GiB, size. rewrite repeat_length. apply Z2Nat.id. lia.
Qed.

Lemma four_GiB_nonempty : four_GiB <> [].
Proof.
  intros E. pose proof size_four_GiB as Hs. rewrite E in Hs. discriminate Hs.
Qed.

Lemma four_GiB_is_refused (zlib : Zlib) :
  zipData LLP64 zlib (Some four_GiB) (size four_GiB)
  = Some ([], [ErrorLog "The size of the source data is too large"]).
Proof.
  apply zipData_too_large; rewrite size_four_GiB; discriminate.
Qed.

Lemma nothing_written_for_empty_result :
  zipStreamBuf LP64 Rle.zlib (stream_of []) (fresh_stream false)
  = Some ((false, fresh_stream false), [])
  /\ zipStreamBuf LLP64 Rle.zlib (stream_of four_GiB) (mkBoundedSink [] 10 false)
     = Some ((false, mkBoundedSink [] 10 false),
             [ErrorLog "The size of the source data is too large"]).
Proof.
  split.
  - apply (zipStreamBuf_empty_zip_writes_nothing LP64 Rle.zlib
             (stream_of []) (fresh_stream false) []).
    reflexivity.
  - apply (zipStreamBuf_empty_zip_writes_nothing LLP64 Rle.zlib
             (stream_of four_GiB) (mkBoundedSink [] 10 false)).
    apply four_GiB_is_refused.
Defined.

Lemma decoding_of_the_two_sample_images :
  value (zip <- zipData LP64 Rle.zlib (Some pixels_4x3) (size pixels_4x3) ;;
         CreateImageFromZlib LP64 Rle.zlib (enough_fuel LP64) 4 3 (Some zip)
                             (size zip) false)
  = Some (mkImage 4 3 pixels_4x3 [] true)
  /\ value (zip <- zipData LP64 Rle.zlib (Some planes_2x2) (size planes_2x2) ;;
            CreateImageFromZlib LP64 Rle.zlib (enough_fuel LP64) 2 2 (Some zip)
                                (size zip) true)
     = Some (mkImage 2 2 [x0a; x0b; x0c; x0d] [x01; x00; x02; x00] false)
  /\ (exists k : nat,
     first_fit (initial_guess LP64 (size (Rle.deflate pixels_4x3)))
               (size pixels_4x3) k
     /\ (size pixels_4x3 <= ULONG_MAX LP64
         /\ can_grow LP64 (initial_guess LP64 (size (Rle.deflate pixels_4x3))) k ->
         value (zip <- zipData LP64 Rle.zlib (Some pixels_4x3) (size pixels_4x3) ;;
                CreateImageFromZlib LP64 Rle.zlib (enough_fuel LP64) 4 3 (Some zip)
                                    (size zip) false)
         = Some (mkImage 4 3 (firstn (Z.to_nat (4 * 3)) pixels_4x3) []
                         (negb false)))
     /\ (~ (size pixels_4x3 <= ULONG_MAX LP64
            /\ can_grow LP64 (initial_guess LP64 (size (Rle.deflate pixels_4x3))) k) ->
         value (zip <- zipData LP64 Rle.zlib (Some pixels_4x3) (size pixels_4x3) ;;
                CreateImageFromZlib LP64 Rle.zlib (enough_fuel LP64) 4 3 (Some zip)
                                    (size zip) false)
         = Some Image_default))
  /\ (exists k : nat,
        first_fit (initial_guess LP64 (size (Rle.deflate planes_2x2)))
                  (size planes_2x2) k
        /\ (size planes_2x2 <= ULONG_MAX LP64
            /\ can_grow LP64 (initial_guess LP64 (size (Rle.deflate planes_2x2))) k ->
            value (zip <- zipData LP64 Rle.zlib (Some planes_2x2) (size planes_2x2) ;;
                   CreateImageFromZlib LP64 Rle.zlib (enough_fuel LP64) 2 2 (Some zip)
                                       (size zip) true)
            = Some (mkImage 2 2 (firstn (Z.to_nat (2 * 2)) planes_2x2)
                            (skipn (Z.to_nat (2 * 2)) planes_2x2) (negb true)))
        /\ (~ (size planes_2x2 <= ULONG_MAX LP64
               /\ can_grow LP64 (initial_guess LP64 (size (Rle.deflate planes_2x2))) k) ->
            value (zip <- zipData LP64 Rle.zlib (Some planes_2x2) (size planes_2x2) ;;
                   CreateImageFromZlib LP64 Rle.zlib (enough_fuel LP64) 2 2 (Some zip)
                                       (size zip) true)
            = Some Image_default)).
Proof.
  split; [reflexivity |]. split; [reflexivity |].
  split.
  - apply (CreateImageFromZlib_decodes_planes LP64 Rle.zlib LP64_ok (enough_fuel LP64)
             4 3 false pixels_4x3 (Rle.deflate pixels_4x3)).
    + lia.
    + lia.
    + reflexivity.
    + discriminate.
    + by_computation.
    + apply Rle_deflates; [reflexivity | by_computation].
    + apply Rle_inflates. reflexivity.
    + by_computation.
    + apply le_n.
  - apply (CreateImageFromZlib_decodes_planes LP64 Rle.zlib LP64_ok (enough_fuel LP64)
             2 2 true planes_2x2 (Rle.deflate planes_2x2)).
    + lia.
    + lia.
    + reflexivity.
    + reflexivity.
    + by_computation.
    + apply Rle_deflates; [reflexivity | by_computation].
    + apply Rle_inflates. reflexivity.
    + by_computation.
    + apply le_n.
Defined.

(** ** Where the universal readings fail *)

(** On 64-bit Windows ([LLP64]) a buffer of 2^32 bytes is refused by
    [zipData] before the library is called, whatever the library; the
    round trip yields the empty vector and not the buffer. *)
Lemma round_trip_refuses_four_GiB_on_LLP64 :
  four_GiB <> []
  /\ forall (zlib : Zlib) (fuel : nat),
       (zip <- zipData LLP64 zlib (Some four_GiB) (size four_GiB) ;;
        unzipData LLP64 zlib fuel (Some zip) (size zip) 0)
       = Some ([], [ErrorLog "The size of the source data is too large"]).
Proof.
  split; [exact four_GiB_nonempty |].
  intros zlib fuel. rewrite four_GiB_is_refused. reflexivity.
Qed.

(** On the same platform [zipStreamBuf] returns [false] for that buffer
    and a fresh stream, whatever the library. *)
Lemma framed_write_refuses_four_GiB_on_LLP64 :
  four_GiB <> []
  /\ forall (zlib : Zlib) (be : bool),
       zipStreamBuf LLP64 zlib (stream_of four_GiB) (fresh_stream be)
       = Some ((false, fresh_stream be),
               [ErrorLog "The size of the source data is too large"]).
Proof.
  split; [exact four_GiB_nonempty |].
  intros zlib be. unfold zipStreamBuf. cbn [stream_of data buf_size].
  rewrite four_GiB_is_refused. reflexivity.
Qed.

Lemma size_concat_pairs (a b : byte) (m : nat) :
  size (concat (repeat [a; b] m)) = 2 * Z.of_nat m.
Proof.
  unfold size. induction m as [| m IH]; [reflexivity |].
  cbn [repeat concat app length]. lia.
Qed.

Lemma size_wide_stream : size wide_stream = 2 ^ 29.
Proof.
  unfold wide_stream, fifteen_zeros. rewrite size_concat_pairs, Z2Nat.id by lia.
  reflexivity.
Qed.

Lemma size_wide_content : size wide_content = 15 * 2 ^ 28.
Proof.
  unfold wide_content, size. rewrite repeat_length, Nat2Z.inj_mul, Z2Nat.id by lia.
  reflexivity.
Qed.

Lemma fifteen_zeros_inflate (m : nat) :
  inflates Rle.zlib (concat (repeat fifteen_zeros m)) (repeat x00 (15 * m)).
Proof. apply Rle_inflates. exact (Rle_inflate_runs x0f x00 m). Qed.

Lemma wide_stream_inflates : inflates Rle.zlib wide_stream wide_content.
Proof. unfold wide_stream, wide_content. apply fifteen_zeros_inflate. Qed.

(** On 64-bit Windows a valid stream of 512 MiB whose content of
    3.75 GiB is longer than 7 times the stream, and representable in
    [uLong], is not decompressed: the first buffer of 3.5 GiB is too
    small, its double is not representable in [uLong], and [unzipData]
    returns the empty vector.  This is so for every library for which
    the stream is valid with that content; the reference codec is one. *)
Lemma growth_refuses_wide_stream_on_LLP64 :
  inflates Rle.zlib wide_stream wide_content
  /\ 7 * size wide_stream < size wide_content
  /\ size wide_content <= ULONG_MAX LLP64
  /\ wide_content <> []
  /\ forall zlib : Zlib,
       inflates zlib wide_stream wide_content ->
       forall fuel : nat,
         unzipData LLP64 zlib (S fuel) (Some wide_stream) (size wide_stream) 0
         = Some ([], [CallUncompress (7 * 2 ^ 29) wide_stream;
                      ErrorLog "The size of the decompressed data is too large"]).
Proof.
  pose proof size_wide_stream as Hc. pose proof size_wide_content as Hd.
  split; [exact wide_stream_inflates |].
  split; [rewrite Hc, Hd; reflexivity |].
  split; [rewrite Hd; discriminate |].
  split; [intros E; rewrite E in Hd; discriminate Hd |].
  intros zlib Hinf fuel.
  pose proof (unzipData_overshoots LLP64 zlib LLP64_ok fuel wide_stream
                (size wide_stream) 0) as Hrun.
  rewrite read_n_all in Hrun.
  assert (Hfirst : first_size LLP64 (size wide_stream) 0 = 7 * 2 ^ 29)
    by (rewrite Hc; reflexivity).
  rewrite Hfirst in Hrun.
  apply Hrun.
  - rewrite Hc. by_computation.
  - lia.
  - by_computation.
  - apply (Hinf (7 * 2 ^ 29)); [reflexivity | rewrite Hd; reflexivity].
  - discriminate.
Qed.

(** On 64-bit Windows ([LLP64]) an image of 65536 x 65536 pixels, one
    byte each, has the 2^32 bytes of the 4 GiB buffer; the dimensions
    are positive and their product is the length of the buffer.
    [zipData] refuses the buffer before the library is called, whatever
    the library, so [CreateImageFromZlib] is handed no bytes and
    returns the default image, whose width is 0. *)
Lemma four_GiB_image_is_refused_on_LLP64 :
  0 < 65536
  /\ 65536 * 65536 = plane_size false four_GiB
  /\ width Image_default <> 65536
  /\ forall (zlib : Zlib) (fuel : nat),
       value (zip <- zipData LLP64 zlib (Some four_GiB) (size four_GiB) ;;
              CreateImageFromZlib LLP64 zlib fuel 65536 65536 (Some zip)
                                  (size zip) false)
       = Some Image_default.
Proof.
  split; [reflexivity |].
  split; [cbn [plane_size]; rewrite size_four_GiB; reflexivity |].
  split; [discriminate |].
  intros zlib fuel. rewrite four_GiB_is_refused. reflexivity.
Qed.

Lemma garbage_is_not_decompressed :
  unzipData ILP32 Rle.zlib (enough_fuel ILP32) (Some garbage) (size garbage) 0
  = Some ([], [CallUncompress 7 garbage; ErrorLogCode "zlib error: " Z_DATA_ERROR]).
Proof. reflexivity. Qed.

(** C6 at a failing input: with a 32-bit [size_t] ([ILP32]), width and
    height 65536 and an input that is not a compressed stream, the
    decompressed length and so the plane size is 0, and the product
    [width * height] is 2^32, which differs from it; but
    [static_cast<size_t>( width ) * height] wraps to 0, the check
    passes, and [CreateImageFromZlib] returns an image of width and
    height 65536 instead of the default image. *)
Theorem CreateImageFromZlib_accepts_wrapped_area_on_ILP32 :
  65536 * 65536 <> plane_size false []
  /\ area ILP32 65536 65536 = plane_size false []
  /\ exists (img : Image) (t : Trace),
       CreateImageFromZlib ILP32 Rle.zlib (enough_fuel ILP32) 65536 65536
                           (Some garbage) (size garbage) false
       = Some (img, t)
       /\ width img = 65536 /\ height img = 65536
       /\ img <> Image_default.
Proof.
  split; [discriminate |]. split; [reflexivity |].
  exists (built_image 65536 65536 false []). eexists.
  split.
  - rewrite (CreateImageFromZlib_decides ILP32 Rle.zlib (enough_fuel ILP32)
               65536 65536 garbage (size garbage) false [] _
               ltac:(discriminate) ltac:(lia) ltac:(lia)
               garbage_is_not_decompressed).
    reflexivity.
  - destruct (built_image_dimensions 65536 65536 false []) as [Hw Hh].
    split; [exact Hw |]. split; [exact Hh |].
    intros E. rewrite E in Hw. discriminate Hw.
Qed.

(* ================================================================== *)
(** * Further properties of the five functions                         *)
(* ================================================================== *)

(** ** Guards and library errors *)

Section Guards.

Variable P : Platform.
Variable zlib : Zlib.
Hypothesis P_ok : PlatformOk P.

Lemma to_uLong_changes (x : Z) : ULONG_MAX P < x -> to_uLong P x <> x.
Proof.
  intros Hbig. unfold to_uLong.
  pose proof (ulong_holds_uint32 P P_ok) as HU. unfold UINT32_MAX in HU.
  pose proof (Z.mod_pos_bound x (ULONG_MAX P + 1) ltac:(lia)). lia.
Qed.

(** X1: a source whose length is not representable in [uLong] is
    refused by both functions before the library is called: the result
    is empty and the trace holds the one log line of the guard. *)
Theorem oversized_source_is_refused_before_the_library
  (fuel : nat) (mem : bytes) (srcSize realSize : Z) :
  ULONG_MAX P < srcSize ->
  zipData P zlib (Some mem) srcSize
  = Some ([], [ErrorLog "The size of the source data is too large"])
  /\ unzipData P zlib fuel (Some mem) srcSize realSize
     = Some ([], [ErrorLog "The size of the compressed data is too large"]).
Proof.
  intros Hbig.
  pose proof (ulong_holds_uint32 P P_ok) as HU. unfold UINT32_MAX in HU.
  pose proof (to_uLong_changes srcSize Hbig) as Hcast.
  split.
  - apply zipData_too_large; [lia | exact Hcast].
  - unfold unzipData. cbv zeta.
    destruct (Z.eqb_spec srcSize 0); [lia |].
    destruct (Z.eqb_spec (to_uLong P srcSize) srcSize); [contradiction |].
    reflexivity.
Qed.

(** X2: when the size of the first buffer (the hint, or the guess of 7
    times the source length) is not representable in [uLong],
    [unzipData] gives up before the library is called. *)
Theorem oversized_first_buffer_is_refused_before_the_library
  (fuel : nat) (mem : bytes) (srcSize realSize : Z) :
  0 < srcSize <= ULONG_MAX P ->
  0 <= realSize ->
  ULONG_MAX P < first_size P srcSize realSize ->
  unzipData P zlib fuel (Some mem) srcSize realSize
  = Some ([], [ErrorLog "The size of the decompressed data is too large"]).
Proof.
  intros Hsrc Hreal Hbig.
  unfold unzipData. cbv zeta.
  destruct (Z.eqb_spec srcSize 0); [lia |].
  rewrite (to_uLong_id P srcSize) by lia. rewrite Z.eqb_refl. cbn [negb].
  match goal with
  | |- context [unzip_loop _ _ _ _ ?r _] => set (res := r)
  end.
  assert (Hsize : size res = first_size P srcSize realSize)
    by (apply (size_first_buffer P P_ok); lia).
  rewrite Hsize.
  destruct (Z.eqb_spec (to_uLong P (first_size P srcSize realSize))
                       (first_size P srcSize realSize)) as [E |];
    [apply to_uLong_changes in Hbig; contradiction | reflexivity].
Qed.

(** X3: past its guards [zipData] calls [compressBound] once and then
    [compress] once, with the bound as capacity.  If [compress] answers
    [Z_OK] the result is exactly what it stored; with any other code
    the result is empty and the code is logged.  There is no retry. *)
Theorem zipData_returns_what_compress_stored
  (B : bytes) (code : Z) (out : bytes) :
  0 < size B <= ULONG_MAX P ->
  0 <= compressBound zlib (size B) <= Z.min (SIZE_MAX P) (ULONG_MAX P) ->
  compress zlib (compressBound zlib (size B)) B = (code, out) ->
  size out <= compressBound zlib (size B) ->
  zipData P zlib (Some B) (size B)
  = if code =? Z_OK
    then Some (out, [CallCompressBound (size B);
                     CallCompress (compressBound zlib (size B)) B])
    else Some ([], [CallCompressBound (size B);
                    CallCompress (compressBound zlib (size B)) B;
                    ErrorLogCode "zlib error: " code]).
Proof.
  intros HB Hbound Hrun Hout.
  pose proof (size_nonneg out) as Hout0.
  unfold zipData. cbv zeta.
  destruct (Z.eqb_spec (size B) 0); [lia |].
  rewrite (to_uLong_id P (size B)) by lia. rewrite Z.eqb_refl. cbn [negb].
  rewrite call_compressBound_run. cbn [bind].
  rewrite to_size_t_id by lia. rewrite size_vector_n by lia.
  rewrite to_uLong_id by lia. rewrite Z.eqb_refl. cbn [negb].
  rewrite read_n_all, call_compress_run. cbn [bind]. rewrite Hrun.
  destruct (code =? Z_OK); cbn [negb]; [| reflexivity].
  cbn [ret app]. rewrite (to_size_t_id P (size out)) by lia.
  rewrite resize_store; [reflexivity |].
  rewrite size_vector_n; lia.
Qed.

(** X4: when the first call of [uncompress] answers a code that is
    neither [Z_OK] nor [Z_BUF_ERROR], [unzipData] makes no second call:
    the result is empty and the code is logged. *)
Theorem unzipData_gives_up_on_a_library_error
  (fuel : nat) (mem : bytes) (srcSize realSize code : Z) :
  0 < srcSize <= ULONG_MAX P ->
  0 <= realSize ->
  first_size P srcSize realSize <= ULONG_MAX P ->
  fst (uncompress zlib (first_size P srcSize realSize) (read_n mem srcSize)) = code ->
  code <> Z_OK -> code <> Z_BUF_ERROR ->
  unzipData P zlib (S fuel) (Some mem) srcSize realSize
  = Some ([], [CallUncompress (first_size P srcSize realSize) (read_n mem srcSize);
               ErrorLogCode "zlib error: " code]).
Proof.
  intros Hsrc Hreal Hfirst Hcode Hok Hbuf.
  destruct (unzipData_enters_loop P zlib P_ok (S fuel) mem srcSize realSize
              Hsrc Hreal Hfirst) as (res & Hres & ->).
  rewrite Hres.
  destruct (uncompress zlib (first_size P srcSize realSize) (read_n mem srcSize))
    as [c out] eqn:Hcall.
  cbn [fst] in Hcode. subst c.
  rewrite (unzip_loop_break P zlib fuel _ res _ code out Hcall Hbuf).
  cbn [bind after_loop].
  destruct (Z.eqb_spec code Z_OK); [contradiction |]. reflexivity.
Qed.

End Guards.

(** ** More on the retry loop *)

Section LoopBounds.

Variable P : Platform.
Variable zlib : Zlib.
Hypothesis P_ok : PlatformOk P.

(** A finished run of the loop is not changed by more fuel. *)
Lemma unzip_loop_more_fuel (source : bytes) (f : nat) :
  forall (f' : nat) (res : bytes) (dst : Z) (r : LoopExit * Trace),
    (f <= f')%nat ->
    unzip_loop P zlib f source res dst = Some r ->
    unzip_loop P zlib f' source res dst = Some r.
Proof.
  induction f as [| f IH]; intros f' res dst r Hle Hrun; [discriminate |].
  destruct f' as [| f']; [lia |].
  rewrite unzip_loop_step in Hrun |- *. cbv zeta in Hrun |- *.
  destruct (Z_BUF_ERROR =? fst (uncompress zlib dst source)); [| exact Hrun].
  destruct (vector_max_size P / 2 <? _); [exact Hrun |].
  destruct (negb _); [exact Hrun |].
  destruct r as [e t].
  apply tell_Some in Hrun as (t' & Hrun & ->).
  rewrite (IH f' _ _ _ ltac:(lia) Hrun). reflexivity.
Qed.

(** At most one call per unit of fuel; and every capacity after the
    first was obtained by a doubling that passed both guards, so it is
    at most [max_size] and representable in [uLong]. *)
Lemma unzip_loop_bounds (source : bytes) (fuel : nat) :
  forall (res : bytes) (e : LoopExit) (t : Trace),
    0 < size res ->
    unzip_loop P zlib fuel source res (size res) = Some (e, t) ->
    (length (uncompress_caps t) <= fuel)%nat
    /\ Forall (fun cap => cap <= Z.min (vector_max_size P) (ULONG_MAX P))
              (tl (uncompress_caps t)).
Proof.
  pose proof (max_size_pos P P_ok) as Hpos.
  pose proof (max_size_fits P P_ok) as Hfit.
  pose proof (ulong_holds_uint32 P P_ok) as HU. unfold UINT32_MAX in HU.
  induction fuel as [| fuel IH]; intros res e t Hs Hrun; [discriminate |].
  rewrite unzip_loop_step in Hrun. cbv zeta in Hrun.
  apply tell_Some in Hrun as (t' & Hrun & ->). cbn [uncompress_caps length tl].
  rewrite size_store in Hrun.
  destruct (Z_BUF_ERROR =? fst (uncompress zlib (size res) source)).
  - destruct (Z.ltb_spec (vector_max_size P / 2) (size res)) as [Hgt | Hle].
    { injection Hrun as <- <-. cbn. split; [lia | constructor]. }
    apply (half_max_size P) in Hle.
    rewrite (Z.mul_comm (size res) 2) in Hrun.
    rewrite to_size_t_id in Hrun by lia.
    rewrite size_resize in Hrun by lia.
    destruct (Z.eqb_spec (to_uLong P (2 * size res)) (2 * size res)) as [E | NE];
      cbn [negb] in Hrun.
    + rewrite E in Hrun.
      set (res' := resize (2 * size res) _) in Hrun.
      assert (Hs' : size res' = 2 * size res) by (apply size_resize; lia).
      rewrite <- Hs' in Hrun.
      assert (Hpos' : 0 < size res') by lia.
      destruct (unzip_loop_spec P zlib P_ok _ _ _ _ _ Hpos' Hrun)
        as (rest & Hcaps & _).
      destruct (IH _ _ _ Hpos' Hrun) as [Hlen Htl].
      rewrite Hcaps in *. cbn [tl length] in *.
      split; [lia |]. constructor; [| exact Htl].
      assert (2 * size res < ULONG_MAX P + 1).
      { rewrite <- E. unfold to_uLong. apply Z.mod_pos_bound. lia. }
      lia.
    + injection Hrun as <- <-. cbn. split; [lia | constructor].
  - injection Hrun as <- <-. cbn. split; [lia | constructor].
Qed.

(** [unzipData] on a non-null source either refuses at a guard, with
    no call of the library, or enters the loop with a buffer of the
    first size. *)
Lemma unzipData_refuses_or_loops (mem : bytes) (srcSize realSize : Z) :
  0 <= srcSize -> 0 <= realSize ->
  (exists t0 : Trace,
     uncompress_caps t0 = []
     /\ forall fuel, unzipData P zlib fuel (Some mem) srcSize realSize = Some ([], t0))
  \/ (exists res : bytes,
        0 < size res
        /\ size res = first_size P srcSize realSize
        /\ forall fuel,
             unzipData P zlib fuel (Some mem) srcSize realSize
             = bind (unzip_loop P zlib fuel (read_n mem srcSize) res (size res))
                    (after_loop P)).
Proof.
  intros Hsrc Hreal. unfold unzipData. cbv zeta.
  destruct (Z.eqb_spec srcSize 0) as [| Hnz];
    [left; exists []; split; reflexivity |].
  destruct (Z.eqb_spec (to_uLong P srcSize) srcSize) as [E1 |]; cbn [negb];
    [| left; eexists; split; [| intros; reflexivity]; reflexivity].
  match goal with
  | |- context [unzip_loop _ _ _ _ ?r _] => set (res := r)
  end.
  assert (Hsize : size res = first_size P srcSize realSize)
    by (apply (size_first_buffer P P_ok); lia).
  pose proof (first_size_pos P P_ok srcSize realSize ltac:(lia) Hreal) as Hpos.
  destruct (Z.eqb_spec (to_uLong P (size res)) (size res)) as [E2 |]; cbn [negb];
    [| left; eexists; split; [| intros; reflexivity]; reflexivity].
  right. exists res. rewrite E1, E2. repeat split; [lia | exact Hsize].
Qed.

Lemma uncompress_caps_after_loop (e : LoopExit) (r : bytes) (t : Trace) :
  after_loop P e = Some (r, t) -> uncompress_caps t = [].
Proof.
  destruct e as [v | ret_ res dst]; cbn [after_loop].
  - intros E. injection E as _ <-. reflexivity.
  - destruct (negb (ret_ =? Z_OK)); intros E; injection E as _ <-; reflexivity.
Qed.

(** X5: for every input and whatever the library answers, [unzipData]
    returns after at most [enough_fuel] calls of [uncompress] (two more
    than the binary logarithm of [max_size]), and every capacity after
    the first is at most [max_size] and representable in [uLong]: the
    doubling never asks the vector for more than it can hold. *)
Theorem unzipData_bounds_its_calls_and_buffers
  (fuel : nat) (src : option bytes) (srcSize realSize : Z) :
  0 <= srcSize -> 0 <= realSize ->
  (enough_fuel P <= fuel)%nat ->
  exists (r : bytes) (t : Trace),
    unzipData P zlib fuel src srcSize realSize = Some (r, t)
    /\ (length (uncompress_caps t) <= enough_fuel P)%nat
    /\ Forall (fun cap => cap <= Z.min (vector_max_size P) (ULONG_MAX P))
              (tl (uncompress_caps t)).
Proof.
  intros Hsrc Hreal Hfuel.
  destruct src as [mem |];
    [| exists [], []; repeat split; [cbn; lia | constructor]].
  destruct (unzipData_refuses_or_loops mem srcSize realSize Hsrc Hreal)
    as [(t0 & Hcaps & Hrun) | (res & Hpos & Hsize & Hrun)].
  - exists [], t0. rewrite Hrun, Hcaps. repeat split; [cbn; lia | constructor].
  - rewrite Hrun.
    destruct (enough_fuel_spec P P_ok (enough_fuel P) (size res) (le_n _) Hpos)
      as (f & Hf & Hpow).
    destruct (unzip_loop_terminates P zlib P_ok (read_n mem srcSize) f res Hpos Hpow)
      as (e & t & Hloop).
    rewrite <- Hf in Hloop.
    destruct (unzip_loop_bounds _ _ _ _ _ Hpos Hloop) as [Hlen Htl].
    rewrite (unzip_loop_more_fuel _ _ fuel _ _ _ Hfuel Hloop). cbn [bind].
    destruct (after_loop P e) as [[r t1] |] eqn:Hafter.
    + exists r, (t ++ t1).
      rewrite uncompress_caps_app, (uncompress_caps_after_loop _ _ _ Hafter), app_nil_r.
      auto.
    + destruct e as [v | ret_ res' dst]; cbn [after_loop] in Hafter;
        [discriminate |]. destruct (negb _); discriminate.
Qed.

(** X6: on a valid compressed stream with content [d], whatever the
    size hint and whether or not a guard or the library stops the
    decompression, [unzipData] returns either [d] or the empty vector:
    never a part of the content, a padded buffer or other bytes. *)
Theorem unzipData_returns_the_content_or_nothing
  (fuel : nat) (c d : bytes) (realSize : Z) :
  inflates zlib c d ->
  size d <= SIZE_MAX P ->
  0 <= realSize ->
  (enough_fuel P <= fuel)%nat ->
  exists (r : bytes) (t : Trace),
    unzipData P zlib fuel (Some c) (size c) realSize = Some (r, t)
    /\ (r = [] \/ r = d).
Proof.
  intros Hinf Hd Hreal Hfuel.
  pose proof (size_nonneg c) as Hc0. pose proof (size_nonneg d) as Hd0.
  destruct (unzipData_refuses_or_loops c (size c) realSize Hc0 Hreal)
    as [(t0 & _ & Hrun) | (res & Hpos & Hsize & Hrun)].
  - exists [], t0. rewrite Hrun. auto.
  - rewrite Hrun, read_n_all.
    destruct (enough_fuel_spec P P_ok fuel (size res) Hfuel Hpos) as (f & -> & Hpow).
    destruct (unzip_loop_terminates P zlib P_ok c f res Hpos Hpow) as (e & t & Hloop).
    rewrite Hloop. cbn [bind].
    destruct (unzip_loop_run P zlib P_ok _ _ _ _ _ Hpos Hloop) as (n & _ & Hexit).
    destruct e as [v | ret_ res' dst'].
    + destruct Hexit as [-> _]. cbn [after_loop ret]. eauto.
    + destruct Hexit as (_ & _ & Hlast & -> & buf & Hbuf & ->).
      cbn [after_loop].
      destruct (Z.eqb_spec ret_ Z_OK) as [-> | Hne]; cbn [negb ret];
        [| cbn; eauto].
      destruct (Hinf _ (pow2_pos (size res) n Hpos)) as [Hfits Hshort].
      destruct (Z.le_gt_cases (size d) (size res * 2 ^ Z.of_nat n)) as [Hle | Hgt];
        [| rewrite (Hshort Hgt) in Hlast; discriminate].
      rewrite (Hfits Hle). cbn [snd].
      rewrite (to_size_t_id P (size d)) by lia.
      rewrite resize_store by lia. eauto.
Qed.


(** X8: round trip with the length as hint, as [unzipStream] uses it:
    for a non-empty buffer [B] that the library compresses to [c] and
    decompresses back from [c] into a destination of the length of [B],
    with the length of [B] and [compressBound] of it representable in
    [uLong] and [size_t], [unzipData] with hint |B| on [zipData] of [B]
    gives [B] with a single call of [uncompress], of capacity |B|.  No
    doubling takes place, and nothing is assumed of what the library
    answers for other capacities. *)
Theorem round_trip_with_size_hint_needs_one_call (fuel : nat) (B c : bytes) :
  B <> [] ->
  deflates zlib B c ->
  uncompress zlib (size B) c = (Z_OK, B) ->
  size B <= Z.min (ULONG_MAX P) (SIZE_MAX P) ->
  compressBound zlib (size B) <= Z.min (SIZE_MAX P) (ULONG_MAX P) ->
  (enough_fuel P <= fuel)%nat ->
  (zip <- zipData P zlib (Some B) (size B) ;;
   unzipData P zlib fuel (Some zip) (size zip) (size B))
  = Some (B, [CallCompressBound (size B);
              CallCompress (compressBound zlib (size B)) B;
              CallUncompress (size B) c]).
Proof.
  intros HB Hdef Hinf Hsize Hbound Hfuel.
  pose proof (nonempty_size_pos B HB) as HBpos.
  rewrite (zipData_deflates P zlib B c HB ltac:(lia) Hbound Hdef). cbn [bind].
  destruct Hdef as [_ Hc].
  assert (Hfirst : first_size P (size c) (size B) = size B).
  { unfold first_size. destruct (Z.eqb_spec (size B) 0); [lia | reflexivity]. }
  destruct fuel as [| f]; [unfold enough_fuel in Hfuel; lia |].
  rewrite (unzipData_one_call P zlib P_ok f c B (size B));
    rewrite ?Hfirst; auto; try lia.
Qed.

End LoopBounds.

(** ** More on the framing *)

Section ReaderOutcome.

Context (P : Platform) (zlib : Zlib).
Context {I O : Type} `{IStreamBase I} `{OStreamBase O}.

(** What a result of [unzipStream] says about the streams. *)
Lemma unzipStream_outcome (fuel : nat) (inputStream : I) (outputStream : O)
  (ok : bool) (rest : I) (out' : O) (t : Trace) :
  unzipStream P zlib fuel inputStream outputStream = Some ((ok, rest, out'), t) ->
  if ok then
    exists raw : bytes,
      unzipData P zlib fuel (Some (read_zip inputStream))
                (size (read_zip inputStream)) (read_rawSize inputStream)
      = Some (raw, t)
      /\ size raw = read_rawSize inputStream
      /\ out' = putRaw raw outputStream
      /\ fail out' = false
      /\ read_zipSize inputStream <> 0
      /\ read_version inputStream = FORMAT_VERSION_0
      /\ rest = read_rest inputStream
  else
    out' = outputStream
    \/ (exists raw : bytes, out' = putRaw raw outputStream /\ fail out' = true).
Proof.
  destruct (unzipStream_fields P zlib fuel inputStream outputStream)
    as (s1 & s2 & ->).
  destruct (Z.eqb_spec (read_zipSize inputStream) 0) as [| Hzip].
  { intros E. injection E as <- _ <- _. left. reflexivity. }
  destruct (Z.eqb_spec (read_version inputStream) FORMAT_VERSION_0) as [Hver |];
    cbn [negb].
  2:{ intros E. injection E as <- _ <- _. left. reflexivity. }
  destruct (unzipData P zlib fuel _ _ _) as [[raw t0] |]; [| discriminate].
  cbn [bind].
  destruct (Z.eqb_spec (size raw) (read_rawSize inputStream)) as [Hlen |];
    cbn [negb ret].
  2:{ intros E. injection E as <- _ <- _. left. reflexivity. }
  rewrite app_nil_r. intros E. injection E as <- <- <- <-.
  destruct (fail (putRaw raw outputStream)) eqn:Hfail; cbn [negb].
  - right. eauto.
  - exists raw. repeat split; auto.
Qed.

(** X9: whenever [unzipStream] returns [true], the bytes put to the
    output stream are the result of [unzipData] for the payload read,
    their count is exactly the raw-size field of the header, the
    compressed-size field was not 0 and the version was 0, and the
    output stream is not in fault.  Whenever it returns [false], the
    output stream is either untouched or in fault. *)
Theorem unzipStream_result_tells_what_was_written
  (fuel : nat) (inputStream : I) (outputStream : O)
  (ok : bool) (rest : I) (out' : O) (t : Trace) :
  unzipStream P zlib fuel inputStream outputStream = Some ((ok, rest, out'), t) ->
  (ok = true ->
   exists raw : bytes,
     unzipData P zlib fuel (Some (read_zip inputStream))
               (size (read_zip inputStream)) (read_rawSize inputStream)
     = Some (raw, t)
     /\ size raw = read_rawSize inputStream
     /\ out' = putRaw raw outputStream
     /\ fail out' = false
     /\ read_zipSize inputStream <> 0
     /\ read_version inputStream = FORMAT_VERSION_0)
  /\ (ok = false -> out' = outputStream \/ fail out' = true).
Proof.
  intros Hrun. apply unzipStream_outcome in Hrun.
  split; intros ->.
  - destruct Hrun as (raw & H1 & H2 & H3 & H4 & H5 & H6 & _). eauto 10.
  - destruct Hrun as [-> | (raw & _ & Hfail)]; auto.
Qed.

End ReaderOutcome.

Section MemoryStream.

Variable P : Platform.
Variable zlib : Zlib.

Lemma size_encode_int (be : bool) (n : nat) (v : Z) :
  size (encode_int be n v) = Z.of_nat n.
Proof. unfold size. rewrite length_encode_int. reflexivity. Qed.

Lemma size_frame_bytes (be : bool) (rawSize : Z) (zip : bytes) :
  size (frame_bytes be rawSize zip) = 12 + size zip.
Proof.
  unfold frame_bytes. rewrite !size_app, !size_encode_int. lia.
Qed.

(** Writing a block appends its frame to a memory stream. *)
Lemma zipStreamBuf_appends (inputStream : IStreamBuf) (s : StreamBuf)
  (zip : bytes) (t : Trace) :
  zipData P zlib (data inputStream) (buf_size inputStream) = Some (zip, t) ->
  zip <> [] ->
  0 <= buf_size inputStream <= UINT32_MAX ->
  size zip <= UINT32_MAX ->
  zipStreamBuf P zlib inputStream s
  = Some ((negb (failed s),
           mkStreamBuf (content s ++ frame_bytes (bigendian s) (buf_size inputStream) zip)
                       (failed s) (bigendian s)), t).
Proof.
  intros Hzip Hne HL Hz. pose proof (size_nonneg zip).
  rewrite (zipStreamBuf_frames P zlib inputStream s zip t Hzip Hne).
  rewrite framed_StreamBuf, !to_uint32_id by lia. reflexivity.
Qed.

(** Reading a block off a memory stream that starts with a frame takes
    the frame and nothing more, whatever the decompression gives. *)
Lemma unzipStream_consumes (fuel : nat) (be f : bool) (rawSize : Z)
  (zip rest raw : bytes) (out : StreamBuf) (t : Trace) :
  0 <= rawSize <= UINT32_MAX ->
  0 < size zip <= UINT32_MAX ->
  unzipData P zlib fuel (Some zip) (size zip) rawSize = Some (raw, t) ->
  unzipStream P zlib fuel (mkStreamBuf (frame_bytes be rawSize zip ++ rest) f be) out
  = Some ((if size raw =? rawSize then negb (failed out) else false,
           mkStreamBuf rest f be,
           if size raw =? rawSize then sb_putRaw raw out else out), t).
Proof.
  intros Hraw Hzip Hrun.
  unfold frame_bytes. rewrite <- !app_assoc.
  set (s := mkStreamBuf _ _ _).
  destruct (unzipStream_fields P zlib fuel s out) as (s1 & s2 & ->).
  destruct (read_framed be f rawSize zip rest Hraw ltac:(lia))
    as (H1 & H2 & H3 & H4 & H5).
  fold s in H1, H2, H3, H4, H5.
  rewrite H1, H2, H3, H4, H5.
  destruct (Z.eqb_spec (size zip) 0); [lia |].
  rewrite Z.eqb_refl. cbn [negb]. rewrite Hrun. cbn [bind].
  destruct (size raw =? rawSize); cbn [negb ret]; rewrite app_nil_r; reflexivity.
Qed.

(** X10: the wire format.  When compression produced bytes and both
    lengths are representable in 32 bits, [zipStreamBuf] appends to a
    memory stream exactly 12 + |zip| bytes: raw size at offset 0,
    compressed size at offset 4, version 0 at offset 8, two zero bytes
    at offset 10 and the compressed bytes from offset 12 on; it returns
    [true] unless the stream was in fault before.  Read off a stream
    that starts with these bytes, the header fields and the payload are
    the ones written. *)
Theorem zipStreamBuf_appends_a_frame_of_12_bytes_and_payload
  (inputStream : IStreamBuf) (s : StreamBuf) (zip : bytes) (t : Trace) :
  zipData P zlib (data inputStream) (buf_size inputStream) = Some (zip, t) ->
  zip <> [] ->
  0 <= buf_size inputStream <= UINT32_MAX ->
  size zip <= UINT32_MAX ->
  let frame := frame_bytes (bigendian s) (buf_size inputStream) zip in
  zipStreamBuf P zlib inputStream s
  = Some ((negb (failed s),
           mkStreamBuf (content s ++ frame) (failed s) (bigendian s)), t)
  /\ size frame = 12 + size zip
  /\ skipn 12 frame = zip
  /\ firstn 12 frame
     = encode_int (bigendian s) 4 (buf_size inputStream)
       ++ encode_int (bigendian s) 4 (size zip)
       ++ encode_int (bigendian s) 2 0 ++ encode_int (bigendian s) 2 0
  /\ forall (rest : bytes) (f : bool),
       let written := mkStreamBuf (frame ++ rest) f (bigendian s) in
       read_rawSize written = buf_size inputStream
       /\ read_zipSize written = size zip
       /\ read_version written = FORMAT_VERSION_0
       /\ read_zip written = zip
       /\ read_rest written = mkStreamBuf rest f (bigendian s).
Proof.
  intros Hzip Hne HL Hz frame.
  split; [apply zipStreamBuf_appends; assumption |].
  split; [apply size_frame_bytes |].
  assert (Hheader : length (encode_int (bigendian s) 4 (buf_size inputStream)
                            ++ encode_int (bigendian s) 4 (size zip)
                            ++ encode_int (bigendian s) 2 0
                            ++ encode_int (bigendian s) 2 0) = 12%nat).
  { rewrite !length_app, !length_encode_int. reflexivity. }
  assert (Hframe : frame
                   = (encode_int (bigendian s) 4 (buf_size inputStream)
                      ++ encode_int (bigendian s) 4 (size zip)
                      ++ encode_int (bigendian s) 2 0
                      ++ encode_int (bigendian s) 2 0) ++ zip).
  { unfold frame, frame_bytes, FORMAT_VERSION_0. rewrite <- !app_assoc. reflexivity. }
  split; [rewrite Hframe; apply skipn_app_exact; exact Hheader |].
  split; [rewrite Hframe; apply firstn_app_exact; exact Hheader |].
  intros rest f written. subst written frame. unfold frame_bytes.
  rewrite <- !app_assoc.
  apply (read_framed (bigendian s) f (buf_size inputStream) zip rest HL Hz).
Qed.

(** X11: [unzipStream] consumes exactly one frame.  On a memory stream
    that starts with a frame (raw size, a non-empty payload) and
    continues with any bytes, the stream left behind holds exactly
    those bytes, with its fault flag as before: both when the length of
    the decompressed payload is the raw size and it is appended, and
    also when it is not and the call returns [false]. *)
Theorem unzipStream_consumes_exactly_one_frame
  (fuel : nat) (be f : bool) (rawSize : Z)
  (zip rest raw : bytes) (out : StreamBuf) (t : Trace) :
  0 <= rawSize <= UINT32_MAX ->
  0 < size zip <= UINT32_MAX ->
  unzipData P zlib fuel (Some zip) (size zip) rawSize = Some (raw, t) ->
  unzipStream P zlib fuel (mkStreamBuf (frame_bytes be rawSize zip ++ rest) f be) out
  = Some ((if size raw =? rawSize then negb (failed out) else false,
           mkStreamBuf rest f be,
           if size raw =? rawSize
           then mkStreamBuf (content out ++ raw) (failed out) (bigendian out)
           else out), t).
Proof. intros Hraw Hzip Hrun. apply unzipStream_consumes; assumption. Qed.

End MemoryStream.

Section Blocks.

Variable P : Platform.
Variable zlib : Zlib.
Hypothesis P_ok : PlatformOk P.

Lemma framable_zipData (B c : bytes) :
  framable P zlib B c ->
  zipData P zlib (data (stream_of B)) (buf_size (stream_of B))
  = Some (c, [CallCompressBound (size B);
              CallCompress (compressBound zlib (size B)) B])
  /\ c <> [] /\ 0 < size c.
Proof.
  intros (HB & Hdef & _ & Hbound & HB32 & _).
  pose proof (ulong_holds_uint32 P P_ok).
  split; [apply zipData_deflates; auto; lia |].
  destruct Hdef as [_ Hc]. split; [intros ->; cbn in Hc; lia | lia].
Qed.

Lemma framable_unzipData (fuel : nat) (B c : bytes) :
  framable P zlib B c ->
  (enough_fuel P <= fuel)%nat ->
  exists t : Trace,
    unzipData P zlib fuel (Some c) (size c) (size B) = Some (B, t).
Proof.
  intros (HB & Hdef & Hinf & Hbound & HB32 & Hc32) Hfuel.
  pose proof (ulong_holds_uint32 P P_ok). pose proof (size_holds_uint32 P P_ok).
  pose proof (nonempty_size_pos B HB). destruct Hdef as [_ Hc].
  assert (Hfirst : first_size P (size c) (size B) = size B).
  { unfold first_size. destruct (Z.eqb_spec (size B) 0); [lia | reflexivity]. }
  destruct fuel as [| f]; [unfold enough_fuel in Hfuel; lia |].
  rewrite (unzipData_one_call P zlib P_ok f c B (size B));
    rewrite ?Hfirst; auto; try lia.
  eauto.
Qed.

(** X12: blocks written one after the other into a memory stream are
    read back in the same order.  For two buffers that can be framed,
    the second [zipStreamBuf] appends its frame behind the first; the
    first [unzipStream] appends the first buffer to the output and
    leaves the second frame in the input, and the second [unzipStream]
    appends the second buffer and leaves the input empty. *)
Theorem two_blocks_are_read_back_in_order
  (fuel : nat) (be : bool) (B1 c1 B2 c2 : bytes) (out : StreamBuf) :
  framable P zlib B1 c1 ->
  framable P zlib B2 c2 ->
  failed out = false ->
  (enough_fuel P <= fuel)%nat ->
  let frame1 := frame_bytes be (size B1) c1 in
  let frame2 := frame_bytes be (size B2) c2 in
  let out1 := mkStreamBuf (content out ++ B1) false (bigendian out) in
  let out2 := mkStreamBuf ((content out ++ B1) ++ B2) false (bigendian out) in
  exists t1 t2 t3 t4 : Trace,
    zipStreamBuf P zlib (stream_of B1) (fresh_stream be)
    = Some ((true, mkStreamBuf frame1 false be), t1)
    /\ zipStreamBuf P zlib (stream_of B2) (mkStreamBuf frame1 false be)
       = Some ((true, mkStreamBuf (frame1 ++ frame2) false be), t2)
    /\ unzipStream P zlib fuel (mkStreamBuf (frame1 ++ frame2) false be) out
       = Some ((true, mkStreamBuf frame2 false be, out1), t3)
    /\ unzipStream P zlib fuel (mkStreamBuf frame2 false be) out1
       = Some ((true, mkStreamBuf [] false be, out2), t4).
Proof.
  intros Hb1 Hb2 Hout Hfuel frame1 frame2 out1 out2.
  destruct (framable_zipData B1 c1 Hb1) as (Hz1 & Hne1 & Hpos1).
  destruct (framable_zipData B2 c2 Hb2) as (Hz2 & Hne2 & Hpos2).
  destruct (framable_unzipData fuel B1 c1 Hb1 Hfuel) as (t3 & Hu1).
  destruct (framable_unzipData fuel B2 c2 Hb2 Hfuel) as (t4 & Hu2).
  destruct Hb1 as (_ & _ & _ & _ & HB1 & Hc1).
  destruct Hb2 as (_ & _ & _ & _ & HB2 & Hc2).
  pose proof (size_nonneg B1). pose proof (size_nonneg B2).
  eexists _, _, t3, t4. repeat split.
  - rewrite (zipStreamBuf_appends P zlib (stream_of B1) (fresh_stream be) c1 _ Hz1 Hne1)
      by (cbn [stream_of buf_size]; lia).
    reflexivity.
  - rewrite (zipStreamBuf_appends P zlib (stream_of B2) (mkStreamBuf frame1 false be)
               c2 _ Hz2 Hne2) by (cbn [stream_of buf_size]; lia).
    reflexivity.
  - unfold frame1.
    rewrite (unzipStream_consumes P zlib fuel be false (size B1) c1 frame2 B1 out t3)
      by (auto; lia).
    rewrite Z.eqb_refl, Hout. unfold sb_putRaw. rewrite Hout. reflexivity.
  - rewrite <- (app_nil_r frame2) at 1. unfold frame2 at 1.
    rewrite (unzipStream_consumes P zlib fuel be false (size B2) c2 [] B2 out1 t4)
      by (auto; lia).
    rewrite Z.eqb_refl. reflexivity.
Qed.

(** X13: the frame stores the length of the source modulo 2^32 and
    [zipStreamBuf] does not refuse a longer source.  So a block that
    was written with result [true] from a buffer of 2^32 bytes or more
    carries a raw size that is not the length of the buffer, and no
    call of [unzipStream] on it, on any platform and with any library,
    returns [true] with the buffer appended: what a successful read
    appends has as many bytes as the stored raw size. *)
Theorem oversized_buffer_is_framed_but_never_read_back
  (be : bool) (B : bytes) (written : StreamBuf) (t1 : Trace) :
  UINT32_MAX < size B ->
  zipStreamBuf P zlib (stream_of B) (fresh_stream be) = Some ((true, written), t1) ->
  read_rawSize written = to_uint32 (size B)
  /\ read_rawSize written <> size B
  /\ forall (P' : Platform) (zlib' : Zlib) (fuel : nat) (out out' rest : StreamBuf)
            (t2 : Trace),
       unzipStream P' zlib' fuel written out = Some ((true, rest, out'), t2) ->
       exists raw : bytes,
         out' = mkStreamBuf (content out ++ raw) (failed out) (bigendian out)
         /\ size raw = to_uint32 (size B)
         /\ raw <> B.
Proof.
  intros Hbig Hwrite.
  assert (Hmod : 0 <= to_uint32 (size B) <= UINT32_MAX).
  { unfold to_uint32, UINT32_MAX.
    pose proof (Z.mod_pos_bound (size B) (2 ^ 32 - 1 + 1) ltac:(lia)). lia. }
  assert (Hraw : read_rawSize written = to_uint32 (size B)).
  { unfold zipStreamBuf in Hwrite. cbn [stream_of data buf_size] in Hwrite.
    destruct (zipData P zlib (Some B) (size B)) as [[zip t] |]; [| discriminate].
    cbn [bind] in Hwrite.
    destruct (empty zip); cbn [ret] in Hwrite; [discriminate |].
    apply (f_equal (option_map (fun r : bool * StreamBuf * Trace => snd (fst r))))
      in Hwrite.
    cbn [option_map fst snd] in Hwrite. injection Hwrite as <-.
    change (read_rawSize (framed (size B) zip (fresh_stream be)) = to_uint32 (size B)).
    rewrite framed_StreamBuf. cbn [fresh_stream content failed bigendian app].
    unfold read_rawSize. cbn [get32 StreamBuf_IStreamBase].
    rewrite sb_get_encoded; [reflexivity |].
    change (256 ^ Z.of_nat 4) with (UINT32_MAX + 1). lia. }
  split; [exact Hraw |]. split; [lia |].
  intros P' zlib' fuel out out' rest t2 Hread.
  apply unzipStream_outcome in Hread.
  destruct Hread as (raw & _ & Hlen & -> & _).
  exists raw. rewrite Hraw in Hlen. repeat split; auto.
  intros ->. lia.
Qed.

End Blocks.

(** ** More on the image reconstruction *)

Section ImageDecision.

Variable P : Platform.
Variable zlib : Zlib.

(** X14: on a target whose [size_t] holds the product of any two
    [int32_t] values, the checks of [CreateImageFromZlib] decide its
    result.  With a null pointer the result is the default image and
    nothing is decompressed.  Otherwise, for the bytes [d] that
    [unzipData] returns, the result is the default image exactly when
    the input length is 0, a dimension is not positive, [d] has odd
    length under [doubleLayer], or [width * height] is not the plane
    size; in every other case it is the image of the given width and
    height whose colour-index plane is the first [width * height] bytes
    of [d] and whose transform plane is the rest of [d] under
    [doubleLayer] and absent without it. *)
Theorem CreateImageFromZlib_is_decided_by_its_checks
  (fuel : nat) (w h : Z) (mem : bytes) (imageSize : Z)
  (doubleLayer : bool) (d : bytes) (t : Trace) :
  INT32_MAX * INT32_MAX <= SIZE_MAX P ->
  w <= INT32_MAX -> h <= INT32_MAX ->
  unzipData P zlib fuel (Some mem) imageSize 0 = Some (d, t) ->
  CreateImageFromZlib P zlib fuel w h None imageSize doubleLayer
  = Some (Image_default, [])
  /\ exists (img : Image) (t' : Trace),
       CreateImageFromZlib P zlib fuel w h (Some mem) imageSize doubleLayer
       = Some (img, t')
       /\ (img = Image_default
           <-> imageSize = 0 \/ w <= 0 \/ h <= 0
               \/ (doubleLayer = true /\ Z.odd (size d) = true)
               \/ w * h <> plane_size doubleLayer d)
       /\ (img <> Image_default ->
           img = mkImage w h
                         (firstn (Z.to_nat (w * h)) d)
                         (if doubleLayer
                          then skipn (Z.to_nat (w * h)) d else [])
                         (negb doubleLayer)).
Proof.
  intros Hwide Hw32 Hh32 Hrun.
  split; [apply CreateImageFromZlib_refuses; auto |].
  destruct (Z.eq_dec imageSize 0) as [Hz | Hnz];
    [exists Image_default, []; rewrite CreateImageFromZlib_refuses by auto;
     repeat split; auto; congruence |].
  destruct (Z_le_gt_dec w 0) as [Hw | Hw];
    [exists Image_default, []; rewrite CreateImageFromZlib_refuses by auto;
     repeat split; auto; congruence |].
  destruct (Z_le_gt_dec h 0) as [Hh | Hh];
    [exists Image_default, []; rewrite CreateImageFromZlib_refuses by auto;
     repeat split; auto; congruence |].
  exists (image_of P w h doubleLayer d), t.
  split; [apply CreateImageFromZlib_decides; auto; lia |].
  assert (Harea : area P w h = w * h)
    by (apply area_exact; auto; lia).
  unfold image_of. rewrite land_1_odd, Harea.
  destruct (doubleLayer && Z.odd (size d)) eqn:Hodd.
  { apply andb_true_iff in Hodd as [-> Hodd].
    split; [split; auto 10 | congruence]. }
  destruct (Z.eqb_spec (w * h) (plane_size doubleLayer d)) as [Heq | Hne];
    cbn [negb].
  2:{ split; [split; auto 10 | congruence]. }
  assert (Hdouble : doubleLayer = true -> size d = 2 * (w * h)).
  { intros ->. cbn [andb] in Hodd. cbn [plane_size] in Heq.
    rewrite <- Z.negb_even in Hodd. apply negb_false_iff in Hodd.
    apply Z.even_spec in Hodd as [m Hm]. rewrite Heq, Hm.
    rewrite (Z.mul_comm 2 m), Z.div_mul by lia. lia. }
  assert (Hbuilt := built_image_planes w h doubleLayer d
                      ltac:(nia) Heq Hdouble).
  rewrite Hbuilt.
  assert (Hnd : mkImage w h (firstn (Z.to_nat (w * h)) d)
                  (if doubleLayer then skipn (Z.to_nat (w * h)) d else [])
                  (negb doubleLayer) <> Image_default).
  { intros E. apply (f_equal width) in E. cbn in E. lia. }
  split; [split | auto].
  - intros E. contradiction.
  - intros [? | [? | [? | [[-> Ho] | ?]]]]; try lia; try contradiction.
    cbn [andb] in Hodd. congruence.
Qed.

End ImageDecision.

(** ** The further properties at concrete inputs *)

Lemma size_one_GiB : size one_GiB = 2 ^ 30.
Proof.
  unfold one_GiB, size. rewrite repeat_length. apply Z2Nat.id. lia.
Qed.

(** The identity codec compresses every non-empty buffer to itself and
    decompresses it back. *)
Lemma Stored_deflates (B : bytes) : B <> [] -> deflates Stored.zlib B B.
Proof.
  intros HB. unfold deflates. cbn [compress compressBound Stored.zlib].
  unfold Stored.compress, Stored.compressBound. rewrite Z.leb_refl.
  split; [reflexivity |].
  pose proof (size_nonneg B).
  destruct (Z.eq_dec (size B) 0) as [E |]; [| lia].
  apply size_zero_nil in E. contradiction.
Qed.

Lemma Stored_inflates (B : bytes) : inflates Stored.zlib B B.
Proof.
  intros cap Hpos. cbn [uncompress Stored.zlib]. unfold Stored.uncompress.
  split; intros Hcap; destruct (Z.leb_spec (size B) cap); try lia; reflexivity.
Qed.

Lemma sample_buffer_framable : framable LP64 Rle.zlib sample_buffer sample_stream.
Proof.
  refine (conj _ (conj _ (conj _ (conj _ (conj _ _))))).
  - discriminate.
  - apply Rle_deflates; [reflexivity | by_computation].
  - reflexivity.
  - by_computation.
  - by_computation.
  - by_computation.
Qed.

Lemma pixels_4x3_framable :
  framable LP64 Rle.zlib pixels_4x3 (Rle.deflate pixels_4x3).
Proof.
  refine (conj _ (conj _ (conj _ (conj _ (conj _ _))))).
  - discriminate.
  - apply Rle_deflates; [reflexivity | by_computation].
  - reflexivity.
  - by_computation.
  - by_computation.
  - by_computation.
Qed.

(** With a 64-bit [uLong] and the identity codec, a non-empty buffer
    whose length fits [uLong] is compressed and framed, whatever its
    length modulo 2^32. *)
Lemma Stored_frames_on_LP64 (B : bytes) :
  B <> [] ->
  size B <= ULONG_MAX LP64 ->
  zipStreamBuf LP64 Stored.zlib (stream_of B) (fresh_stream false)
  = Some ((true, framed (size B) B (fresh_stream false)),
          [CallCompressBound (size B);
           CallCompress (compressBound Stored.zlib (size B)) B]).
Proof.
  intros HB Hsize.
  rewrite (zipStreamBuf_frames LP64 Stored.zlib (stream_of B)
             (fresh_stream false) B
             [CallCompressBound (size B);
              CallCompress (compressBound Stored.zlib (size B)) B]).
  - reflexivity.
  - cbn [stream_of data buf_size].
    apply zipData_deflates.
    + exact HB.
    + exact Hsize.
    + cbn [Stored.zlib compressBound]. unfold Stored.compressBound.
      change (SIZE_MAX LP64) with (ULONG_MAX LP64). lia.
    + apply Stored_deflates, HB.
  - exact HB.
Qed.

Lemma four_GiB_is_framed_on_LP64 :
  zipStreamBuf LP64 Stored.zlib (stream_of four_GiB) (fresh_stream false)
  = Some ((true, framed (size four_GiB) four_GiB (fresh_stream false)),
          [CallCompressBound (size four_GiB);
           CallCompress (compressBound Stored.zlib (size four_GiB)) four_GiB]).
Proof.
  apply Stored_frames_on_LP64.
  - apply four_GiB_nonempty.
  - rewrite size_four_GiB. by_computation.
Qed.

Lemma both_directions_refuse_four_GiB_on_LLP64 :
  zipData LLP64 Rle.zlib (Some four_GiB) (size four_GiB)
  = Some ([], [ErrorLog "The size of the source data is too large"])
  /\ unzipData LLP64 Rle.zlib (enough_fuel LLP64) (Some four_GiB) (size four_GiB) 0
     = Some ([], [ErrorLog "The size of the compressed data is too large"]).
Proof.
  apply (oversized_source_is_refused_before_the_library LLP64 Rle.zlib LLP64_ok
           (enough_fuel LLP64) four_GiB (size four_GiB) 0).
  rewrite size_four_GiB. reflexivity.
Defined.

Lemma first_buffer_for_one_GiB_is_refused_on_LLP64 :
  unzipData LLP64 Rle.zlib (enough_fuel LLP64) (Some one_GiB) (size one_GiB) 0
  = Some ([], [ErrorLog "The size of the decompressed data is too large"]).
Proof.
  apply (oversized_first_buffer_is_refused_before_the_library LLP64 Rle.zlib LLP64_ok
           (enough_fuel LLP64) one_GiB (size one_GiB) 0).
  - rewrite size_one_GiB. by_computation.
  - lia.
  - rewrite size_one_GiB. reflexivity.
Defined.

Lemma zipData_of_sample_buffer :
  zipData LP64 Rle.zlib (Some sample_buffer) (size sample_buffer)
  = Some (sample_stream,
          [CallCompressBound (size sample_buffer);
           CallCompress (compressBound Rle.zlib (size sample_buffer)) sample_buffer]).
Proof.
  apply (zipData_returns_what_compress_stored LP64 Rle.zlib sample_buffer
           Z_OK sample_stream).
  - by_computation.
  - by_computation.
  - reflexivity.
  - by_computation.
Defined.

Lemma garbage_is_given_up_after_one_call :
  unzipData LP64 Rle.zlib 1 (Some garbage) (size garbage) 0
  = Some ([], [CallUncompress (first_size LP64 (size garbage) 0)
                              (read_n garbage (size garbage));
               ErrorLogCode "zlib error: " Z_DATA_ERROR]).
Proof.
  apply (unzipData_gives_up_on_a_library_error LP64 Rle.zlib LP64_ok
           0 garbage (size garbage) 0 Z_DATA_ERROR).
  - by_computation.
  - lia.
  - by_computation.
  - reflexivity.
  - discriminate.
  - discriminate.
Defined.

Lemma calls_and_buffers_for_long_run :
  exists (r : bytes) (t : Trace),
    unzipData LP64 Rle.zlib (enough_fuel LP64) (Some long_run_stream)
              (size long_run_stream) 0 = Some (r, t)
    /\ (length (uncompress_caps t) <= enough_fuel LP64)%nat
    /\ Forall (fun cap => cap <= Z.min (vector_max_size LP64) (ULONG_MAX LP64))
              (tl (uncompress_caps t)).
Proof.
  apply (unzipData_bounds_its_calls_and_buffers LP64 Rle.zlib LP64_ok
           (enough_fuel LP64) (Some long_run_stream) (size long_run_stream) 0).
  - by_computation.
  - lia.
  - apply le_n.
Defined.

Lemma long_run_or_nothing :
  exists (r : bytes) (t : Trace),
    unzipData LP64 Rle.zlib (enough_fuel LP64) (Some long_run_stream)
              (size long_run_stream) 3 = Some (r, t)
    /\ (r = [] \/ r = long_run).
Proof.
  apply (unzipData_returns_the_content_or_nothing LP64 Rle.zlib LP64_ok
           (enough_fuel LP64) long_run_stream long_run 3).
  - apply Rle_inflates. reflexivity.
  - by_computation.
  - lia.
  - apply le_n.
Defined.


Lemma sample_buffer_round_trip_with_hint :
  (zip <- zipData LP64 Rle.zlib (Some sample_buffer) (size sample_buffer) ;;
   unzipData LP64 Rle.zlib (enough_fuel LP64) (Some zip) (size zip)
             (size sample_buffer))
  = Some (sample_buffer,
          [CallCompressBound (size sample_buffer);
           CallCompress (compressBound Rle.zlib (size sample_buffer)) sample_buffer;
           CallUncompress (size sample_buffer) sample_stream]).
Proof.
  apply (round_trip_with_size_hint_needs_one_call LP64 Rle.zlib LP64_ok
           (enough_fuel LP64) sample_buffer sample_stream).
  - discriminate.
  - apply Rle_deflates; [reflexivity | by_computation].
  - reflexivity.
  - by_computation.
  - by_computation.
  - apply le_n.
Defined.

Lemma outcome_of_a_good_and_a_bad_block :
  (exists raw : bytes,
     unzipData LP64 Rle.zlib (enough_fuel LP64) (Some (read_zip block_of_sample))
               (size (read_zip block_of_sample)) (read_rawSize block_of_sample)
     = Some (raw, [CallUncompress 22 sample_stream])
     /\ size raw = read_rawSize block_of_sample
     /\ mkStreamBuf sample_buffer false false = putRaw raw (fresh_stream false)
     /\ fail (mkStreamBuf sample_buffer false false) = false
     /\ read_zipSize block_of_sample <> 0
     /\ read_version block_of_sample = FORMAT_VERSION_0)
  /\ (fresh_stream false = fresh_stream false
      \/ fail (fresh_stream false) = true).
Proof.
  split.
  - destruct (unzipStream_result_tells_what_was_written LP64 Rle.zlib
                (enough_fuel LP64) block_of_sample (fresh_stream false)
                true (mkStreamBuf [xaa; xbb] false false)
                (mkStreamBuf sample_buffer false false)
                [CallUncompress 22 sample_stream]) as [Hok _].
    + vm_compute. reflexivity.
    + apply Hok. reflexivity.
  - destruct (unzipStream_result_tells_what_was_written LP64 Rle.zlib
                (enough_fuel LP64) block_of_wrong_size (fresh_stream false)
                false (mkStreamBuf [] false false) (fresh_stream false)
                [CallUncompress 5 [x03; x07]]) as [_ Hbad].
    + vm_compute. reflexivity.
    + apply Hbad. reflexivity.
Defined.

Lemma wire_format_of_sample_buffer :
  let frame := frame_bytes (bigendian (fresh_stream false))
                           (buf_size (stream_of sample_buffer)) sample_stream in
  zipStreamBuf LP64 Rle.zlib (stream_of sample_buffer) (fresh_stream false)
  = Some ((negb (failed (fresh_stream false)),
           mkStreamBuf (content (fresh_stream false) ++ frame)
                       (failed (fresh_stream false))
                       (bigendian (fresh_stream false))),
          [CallCompressBound 22; CallCompress 44 sample_buffer])
  /\ size frame = 12 + size sample_stream
  /\ skipn 12 frame = sample_stream
  /\ firstn 12 frame
     = encode_int (bigendian (fresh_stream false)) 4
                  (buf_size (stream_of sample_buffer))
       ++ encode_int (bigendian (fresh_stream false)) 4 (size sample_stream)
       ++ encode_int (bigendian (fresh_stream false)) 2 0
       ++ encode_int (bigendian (fresh_stream false)) 2 0
  /\ forall (rest : bytes) (f : bool),
       let written := mkStreamBuf (frame ++ rest) f
                                  (bigendian (fresh_stream false)) in
       read_rawSize written = buf_size (stream_of sample_buffer)
       /\ read_zipSize written = size sample_stream
       /\ read_version written = FORMAT_VERSION_0
       /\ read_zip written = sample_stream
       /\ read_rest written
          = mkStreamBuf rest f (bigendian (fresh_stream false)).
Proof.
  apply (zipStreamBuf_appends_a_frame_of_12_bytes_and_payload LP64 Rle.zlib
           (stream_of sample_buffer) (fresh_stream false) sample_stream
           [CallCompressBound 22; CallCompress 44 sample_buffer]).
  - reflexivity.
  - discriminate.
  - by_computation.
  - by_computation.
Defined.

Lemma one_frame_of_sample_buffer_is_consumed :
  unzipStream LP64 Rle.zlib (enough_fuel LP64)
    (mkStreamBuf (frame_bytes false 22 sample_stream ++ [xaa; xbb]) false false)
    (fresh_stream true)
  = Some ((if size sample_buffer =? 22
           then negb (failed (fresh_stream true)) else false,
           mkStreamBuf [xaa; xbb] false false,
           if size sample_buffer =? 22
           then mkStreamBuf (content (fresh_stream true) ++ sample_buffer)
                            (failed (fresh_stream true))
                            (bigendian (fresh_stream true))
           else fresh_stream true),
          [CallUncompress 22 sample_stream]).
Proof.
  apply (unzipStream_consumes_exactly_one_frame LP64 Rle.zlib (enough_fuel LP64)
           false false 22 sample_stream [xaa; xbb] sample_buffer
           (fresh_stream true) [CallUncompress 22 sample_stream]).
  - by_computation.
  - by_computation.
  - reflexivity.
Defined.

Lemma sample_buffer_then_pixels_are_read_back_in_order :
  let frame1 := frame_bytes false (size sample_buffer) sample_stream in
  let frame2 := frame_bytes false (size pixels_4x3) (Rle.deflate pixels_4x3) in
  let out1 := mkStreamBuf (content (fresh_stream true) ++ sample_buffer) false
                          (bigendian (fresh_stream true)) in
  let out2 := mkStreamBuf ((content (fresh_stream true) ++ sample_buffer)
                           ++ pixels_4x3) false
                          (bigendian (fresh_stream true)) in
  exists t1 t2 t3 t4 : Trace,
    zipStreamBuf LP64 Rle.zlib (stream_of sample_buffer) (fresh_stream false)
    = Some ((true, mkStreamBuf frame1 false false), t1)
    /\ zipStreamBuf LP64 Rle.zlib (stream_of pixels_4x3)
                    (mkStreamBuf frame1 false false)
       = Some ((true, mkStreamBuf (frame1 ++ frame2) false false), t2)
    /\ unzipStream LP64 Rle.zlib (enough_fuel LP64)
                   (mkStreamBuf (frame1 ++ frame2) false false) (fresh_stream true)
       = Some ((true, mkStreamBuf frame2 false false, out1), t3)
    /\ unzipStream LP64 Rle.zlib (enough_fuel LP64)
                   (mkStreamBuf frame2 false false) out1
       = Some ((true, mkStreamBuf [] false false, out2), t4).
Proof.
  apply (two_blocks_are_read_back_in_order LP64 Rle.zlib LP64_ok (enough_fuel LP64)
           false sample_buffer sample_stream pixels_4x3 (Rle.deflate pixels_4x3)
           (fresh_stream true)).
  - apply sample_buffer_framable.
  - apply pixels_4x3_framable.
  - reflexivity.
  - apply le_n.
Defined.

Lemma four_GiB_block_is_never_read_back :
  zipStreamBuf LP64 Stored.zlib (stream_of four_GiB) (fresh_stream false)
  = Some ((true, framed (size four_GiB) four_GiB (fresh_stream false)),
          [CallCompressBound (size four_GiB);
           CallCompress (compressBound Stored.zlib (size four_GiB)) four_GiB])
  /\ read_rawSize (framed (size four_GiB) four_GiB (fresh_stream false))
     = to_uint32 (size four_GiB)
  /\ read_rawSize (framed (size four_GiB) four_GiB (fresh_stream false))
     <> size four_GiB
  /\ forall (P' : Platform) (zlib' : Zlib) (fuel : nat)
            (out out' rest : StreamBuf) (t2 : Trace),
       unzipStream P' zlib' fuel
                   (framed (size four_GiB) four_GiB (fresh_stream false)) out
       = Some ((true, rest, out'), t2) ->
       exists raw : bytes,
         out' = mkStreamBuf (content out ++ raw) (failed out) (bigendian out)
         /\ size raw = to_uint32 (size four_GiB)
         /\ raw <> four_GiB.
Proof.
  split; [exact four_GiB_is_framed_on_LP64 |].
  apply (oversized_buffer_is_framed_but_never_read_back LP64 Stored.zlib false
           four_GiB (framed (size four_GiB) four_GiB (fresh_stream false))
           [CallCompressBound (size four_GiB);
            CallCompress (compressBound Stored.zlib (size four_GiB)) four_GiB]).
  - rewrite size_four_GiB. reflexivity.
  - exact four_GiB_is_framed_on_LP64.
Defined.

Lemma checks_decide_the_image_of_twelve_pixels :
  CreateImageFromZlib LP64 Rle.zlib (enough_fuel LP64) 4 3 None
                      (size (Rle.deflate pixels_4x3)) false
  = Some (Image_default, [])
  /\ exists (img : Image) (t' : Trace),
       CreateImageFromZlib LP64 Rle.zlib (enough_fuel LP64) 4 3
                           (Some (Rle.deflate pixels_4x3))
                           (size (Rle.deflate pixels_4x3)) false
       = Some (img, t')
       /\ (img = Image_default
           <-> size (Rle.deflate pixels_4x3) = 0 \/ 4 <= 0 \/ 3 <= 0
               \/ (false = true /\ Z.odd (size pixels_4x3) = true)
               \/ 4 * 3 <> plane_size false pixels_4x3)
       /\ (img <> Image_default ->
           img = mkImage 4 3 (firstn (Z.to_nat (4 * 3)) pixels_4x3)
                         [] (negb false)).
Proof.
  apply (CreateImageFromZlib_is_decided_by_its_checks LP64 Rle.zlib
           (enough_fuel LP64) 4 3 (Rle.deflate pixels_4x3)
           (size (Rle.deflate pixels_4x3)) false pixels_4x3
           [CallUncompress 168 (Rle.deflate pixels_4x3)]).
  - by_computation.
  - by_computation.
  - by_computation.
  - reflexivity.
Defined.
